(** * SearchInProject: the search-engine adapter, the output parser and the
      result session, embedded from [searchengines/base.py] and
      [search_in_project.py].

    Conventions of the embedding.
    - A Python [str] is a Rocq [string]; the character with code [n] stands
      for the code point U+00[n], so the model covers text in the range
      U+0000..U+00FF.  The character predicates below ([isspace], [isalpha],
      the decimal digits, [upper]) are the Unicode ones restricted to that
      range.
    - A Python exception is a value of [exn]; a function that can raise
      returns [result A = exn + A].
    - Library and host functions whose code is not part of the repository
      (the UTF-8 codec, [shlex.split], [subprocess.Popen]) are Section
      variables. *)

From Stdlib Require Import String Ascii List ZArith Lia Bool Arith.
From Stdlib Require Import Numbers.DecimalString Init.Byte.
From Stdlib Require Import Sorting.Permutation.
Import ListNotations.
Open Scope list_scope.
Open Scope string_scope.

(** ** Python exceptions and results *)

Inductive exn : Type :=
| RuntimeError (msg : string)
| ValueError
| IndexError.

Definition result (A : Type) : Type := (exn + A)%type.

Definition ok {A} (a : A) : result A := inr a.
Definition raise {A} (e : exn) : result A := inl e.

Definition bind {A B} (m : result A) (k : A -> result B) : result B :=
  match m with
  | inl e => inl e
  | inr a => k a
  end.

Notation "x <- m ;; k" := (bind m (fun x => k))
  (at level 61, m at next level, right associativity).

(** ** Python string operations *)

Module PyStr.

(** The characters the code names. *)
Definition colon : ascii := ":"%char.
Definition slash : ascii := "/"%char.
Definition newline : ascii := "010"%char.
Definition dquote : ascii := "034"%char.

Definition nl : string := String newline "".
Definition dq : string := String dquote "".

Definition code (c : ascii) : nat := nat_of_ascii c.

(** [str.isspace] on U+0000..U+00FF: TAB..CR, FS..US, SPACE, NEL, NBSP. *)
Definition isspace (c : ascii) : bool :=
  let n := code c in
  (((9 <=? n) && (n <=? 13)) || ((28 <=? n) && (n <=? 32))
   || (n =? 133) || (n =? 160))%nat.

(** The decimal digits (category Nd) of U+0000..U+00FF: [0-9]. *)
Definition isdigit (c : ascii) : bool :=
  let n := code c in ((48 <=? n) && (n <=? 57))%nat.

Definition digit_value (c : ascii) : Z := Z.of_nat (code c) - 48.

(** [str.isalpha] on U+0000..U+00FF (categories Lu, Ll, Lo). *)
Definition isalpha (c : ascii) : bool :=
  let n := code c in
  (((65 <=? n) && (n <=? 90)) || ((97 <=? n) && (n <=? 122))
   || (n =? 170) || (n =? 181) || (n =? 186)
   || ((192 <=? n) && (n <=? 214)) || ((216 <=? n) && (n <=? 246))
   || ((248 <=? n) && (n <=? 255)))%nat.

(** [c.upper()] for a one-character string, as the list of the code points
    of the result: the result can leave U+0000..U+00FF (micro sign, y with
    diaeresis) or have two characters (sharp s). *)
Definition upper (c : ascii) : list nat :=
  let n := code c in
  (if (97 <=? n) && (n <=? 122) then [n - 32]
   else if n =? 181 then [924]
   else if n =? 223 then [83; 83]
   else if ((224 <=? n) && (n <=? 246)) || ((248 <=? n) && (n <=? 254))
        then [n - 32]
   else if n =? 255 then [376]
   else [n])%nat.

Definition is_empty (s : string) : bool :=
  match s with
  | EmptyString => true
  | String _ _ => false
  end.

(** [s.split(sep, maxsplit)] for a one-character separator; [None] is the
    default [maxsplit = -1]. *)
Fixpoint split (sep : ascii) (maxsplit : option nat) (s : string)
  {struct s} : list string :=
  match s with
  | EmptyString => [EmptyString]
  | String c s' =>
      let cut :=
        if Ascii.eqb c sep
        then match maxsplit with
             | None => Some None
             | Some (S k) => Some (Some k)
             | Some O => None
             end
        else None in
      match cut with
      | Some rest => EmptyString :: split sep rest s'
      | None =>
          match split sep maxsplit s' with
          | w :: ws => String c w :: ws
          | [] => [String c EmptyString]
          end
      end
  end.

(** [sep.join(parts)]. *)
Fixpoint join (sep : string) (parts : list string) : string :=
  match parts with
  | [] => EmptyString
  | [p] => p
  | p :: ps => p ++ sep ++ join sep ps
  end.

(** Removing from the left, and from the right, the characters that
    satisfy [p]. *)
Fixpoint lstrip_with (p : ascii -> bool) (s : string) : string :=
  match s with
  | EmptyString => EmptyString
  | String c s' => if p c then lstrip_with p s' else s
  end.

Fixpoint rstrip_with (p : ascii -> bool) (s : string) : string :=
  match s with
  | EmptyString => EmptyString
  | String c s' =>
      let r := rstrip_with p s' in
      if is_empty r && p c then EmptyString else String c r
  end.

(** [s.strip()]. *)
Definition strip (s : string) : string :=
  rstrip_with isspace (lstrip_with isspace s).

(** [s.startswith(p)]. *)
Fixpoint startswith (p s : string) : bool :=
  match p, s with
  | EmptyString, _ => true
  | String a p', String b s' => Ascii.eqb a b && startswith p' s'
  | String _ _, EmptyString => false
  end.

(** [s.replace(old, '')] for a non-empty [old]: scanning from the left,
    every occurrence of [old] is removed and the scan resumes after it.
    [skip] counts the characters of the current occurrence still to drop. *)
Fixpoint remove_from (old : string) (skip : nat) (s : string) : string :=
  match s with
  | EmptyString => EmptyString
  | String c s' =>
      match skip with
      | S k => remove_from old k s'
      | O =>
          if startswith old s
          then remove_from old (String.length old - 1) s'
          else String c (remove_from old 0 s')
      end
  end.

(** [s.replace(old, '')]; replacing the empty string by the empty string
    leaves [s] as it is. *)
Definition remove_all (old s : string) : string :=
  if is_empty old then s else remove_from old 0 s.

(** [s.find(c)] for a character that occurs in [s]: the index of its
    first occurrence. *)
Fixpoint find (c : ascii) (s : string) : nat :=
  match s with
  | EmptyString => 0
  | String a s' => if Ascii.eqb a c then 0 else S (find c s')
  end.

(** [c in s] for a character. *)
Fixpoint contains (c : ascii) (s : string) : bool :=
  match s with
  | EmptyString => false
  | String a s' => Ascii.eqb a c || contains c s'
  end.

(** [old in s] for strings: [old] occurs somewhere in [s]. *)
Fixpoint occurs (old s : string) : bool :=
  startswith old s ||
  match s with
  | EmptyString => false
  | String _ s' => occurs old s'
  end.

(** [s[:n]]. *)
Definition take (n : nat) (s : string) : string := substring 0 n s.

(** [s[n:]]. *)
Fixpoint drop (n : nat) (s : string) : string :=
  match n, s with
  | O, _ => s
  | S _, EmptyString => EmptyString
  | S n', String _ s' => drop n' s'
  end.

(** The longest prefix of [s] whose characters satisfy [p], and the rest. *)
Fixpoint span (p : ascii -> bool) (s : string) : string * string :=
  match s with
  | EmptyString => (EmptyString, EmptyString)
  | String c s' =>
      if p c
      then let (a, b) := span p s' in (String c a, b)
      else (EmptyString, s)
  end.

(** The digits of [int(s)] after the sign: decimal digits, single
    underscores allowed between two digits (since Python 3.6).  [prev]
    tells whether the previous character was a digit. *)
Fixpoint int_digits (acc : Z) (prev : bool) (s : string) : option Z :=
  match s with
  | EmptyString => if prev then Some acc else None
  | String c s' =>
      if isdigit c then int_digits (10 * acc + digit_value c) true s'
      else if Ascii.eqb c "_"%char && prev then int_digits acc false s'
      else None
  end.

(** The whitespace [int] ignores around the number: the separators
    FS..US, which [str.isspace] accepts, are not part of it. *)
Definition int_space (c : ascii) : bool :=
  let n := code c in
  (((9 <=? n) && (n <=? 13)) || (n =? 32) || (n =? 133) || (n =? 160))%nat.

(** [int(s)]: surrounding whitespace is ignored, one sign is allowed;
    [None] stands for [ValueError]. *)
Definition int (s : string) : option Z :=
  match rstrip_with int_space (lstrip_with int_space s) with
  | String "+"%char r => int_digits 0 false r
  | String "-"%char r => option_map Z.opp (int_digits 0 false r)
  | t => int_digits 0 false t
  end.

(** ["%u" % n] and [str(n)] for a natural number. *)
Definition of_nat (n : nat) : string := NilEmpty.string_of_uint (Nat.to_uint n).

End PyStr.

(** ** searchengines/base.py *)

Module Base.

Import PyStr.

(** The three settings an engine reads in [__init__]. *)
Record engine : Type := {
  path_to_executable : string;
  mandatory_options : string;
  common_options : string
}.

(** What [pipe.communicate()] and [pipe.returncode] give for a child that
    was launched. *)
Record completed : Type := {
  returncode : Z;
  output : list byte;
  error : list byte
}.

(** One parsed result: the locator and the matched text. *)
Definition search_result : Type := (string * string)%type.

(** [HAS_COLUMN_INFO = re.compile('^[^:]+:\d+:\d+:')], used with [match]:
    a non-empty run without colon, then twice a colon and a non-empty run
    of digits, then a colon.  Each run is followed by a character outside
    its class, so the greedy runs are the only way to match. *)
Definition HAS_COLUMN_INFO (line : string) : bool :=
  let (path, r1) := span (fun c => negb (Ascii.eqb c colon)) line in
  negb (is_empty path) &&
  match r1 with
  | String c1 r2 =>
      Ascii.eqb c1 colon &&
      let (d1, r3) := span isdigit r2 in
      negb (is_empty d1) &&
      match r3 with
      | String c3 r4 =>
          Ascii.eqb c3 colon &&
          let (d2, r5) := span isdigit r4 in
          negb (is_empty d2) &&
          match r5 with
          | String c5 _ => Ascii.eqb c5 colon
          | EmptyString => false
          end
      | EmptyString => false
      end
  | EmptyString => false
  end.

(** [_is_search_error]: the comparison is evaluated and dropped, the
    function has no [return], so the caller receives [None]. *)
Definition _is_search_error (returncode : Z) (output error : list byte)
  : option bool :=
  let _ := negb (returncode =? 0)%Z in
  None.

(** Truth value of what [_is_search_error] returns, as [if] tests it. *)
Definition truthy (v : option bool) : bool :=
  match v with
  | Some b => b
  | None => false
  end.

(** The skip test of the adjacency filter, lines 109-113: same file name
    and [int(this) == int(last) + 1]; a [ValueError] of [int] is caught
    and the line is yielded.  The line parts come from [r], so they have
    more than two fields and the indexings cannot fail. *)
Definition adjacent (last_line_part this_line_part : list string) : bool :=
  let last_fname := nth 0 last_line_part "" in
  let last_line_nr_str := nth 1 last_line_part "" in
  let this_fname := nth 0 this_line_part "" in
  let this_line_nr_str := nth 1 this_line_part "" in
  String.eqb this_fname last_fname &&
  match int this_line_nr_str, int last_line_nr_str with
  | Some this_nr, Some last_nr => (this_nr =? last_nr + 1)%Z
  | _, _ => false
  end.

(** The loop [for i in range(1, len(r))]: [last] is [r[i - 1]], the list is
    [r[i:]]. *)
Fixpoint filter_adjacent (last : list string) (rest : list (list string))
  : list (list string) :=
  match rest with
  | [] => []
  | this :: rest' =>
      if adjacent last this
      then filter_adjacent this rest'
      else this :: filter_adjacent this rest'
  end.

(** [_filter_lines_without_matches]; the generator is consumed once, by
    the list comprehension of [_parse_output], so it is modelled by the
    list of the values it yields. *)
Definition _filter_lines_without_matches
  (line_parts : list (list string)) (keep_adjacents : bool)
  : list (list string) :=
  let r := filter (fun line => (2 <? List.length line)%nat) line_parts in
  if negb keep_adjacents then
    match r with
    | [] => []
    | r0 :: rest => r0 :: filter_adjacent r0 rest
    end
  else r.

(** The expression of the comprehension of line 81, for one line. *)
Definition line_split (line : string) : list string :=
  if HAS_COLUMN_INFO line
  then split colon (Some 3) line
  else split colon (Some 2) line.

(** [_parse_output]. *)
Definition _parse_output (output : string) (keep_adjacents : bool)
  : list search_result :=
  let lines := split newline None output in
  let line_parts := map line_split lines in
  let line_parts := _filter_lines_without_matches line_parts keep_adjacents in
  map (fun line => (join ":" (removelast line), strip (last line "")))
      line_parts.

Section Run.

(** [bytes.decode('utf-8', 'ignore')]. *)
Variable utf8_decode_ignore : list byte -> string.
(** [shlex.split], which raises [ValueError] on a string it cannot
    tokenize (an unbalanced quote, a trailing backslash). *)
Variable shlex_split : string -> result (list string).
(** [subprocess.Popen(arguments, cwd=...)] followed by [communicate()]:
    [None] when the launch raises [OSError]. *)
Variable popen : list string -> string -> option completed.

Definition _sanitize_output (output : list byte) : string :=
  strip (utf8_decode_ignore output).

Definition _arguments (self : engine) (query : string) (folders : list string)
  : result (list string) :=
  mandatory <- shlex_split (mandatory_options self) ;;
  common <- shlex_split (common_options self) ;;
  ok ([path_to_executable self]
        ++ mandatory
        ++ common
        ++ [query]
        ++ folders)%list.

(** [run]; the arguments are built before the [try], so an exception of
    [shlex.split] leaves [run] as it is.  The [print] of the command line
    is not modelled. *)
Definition run (self : engine) (query : string) (folders : list string)
  (keep_adjacents : bool) : result (list search_result) :=
  arguments <- _arguments self query folders ;;
  match folders with
  | [] => raise IndexError
  | cwd :: _ =>
      match popen arguments cwd with
      | None =>
          raise (RuntimeError
                   ("Could not find executable " ++ path_to_executable self))
      | Some pipe =>
          if truthy (_is_search_error (returncode pipe) (output pipe)
                                      (error pipe))
          then raise (RuntimeError (_sanitize_output (error pipe)))
          else ok (_parse_output (_sanitize_output (output pipe))
                                 keep_adjacents)
      end
  end.

End Run.

(** [SETTINGS]. *)
Definition SETTINGS : list string :=
  ["path_to_executable"; "mandatory_options"; "common_options"].

(** [_full_settings_name], for an engine class called [class_name]. *)
Definition _full_settings_name (class_name name : string) : string :=
  "search_in_project_" ++ class_name ++ "_" ++ name.

End Base.

(** ** search_in_project.py: SearchInProjectCommand *)

Module SearchInProjectCommand.

Import PyStr.

Definition MAX_RESULT_LINE_LENGTH : nat := 1000.

(** *** find_common_path *)

(** [list(set(xs))]: the distinct elements.  The order of a Python set is
    not specified; the code only looks at the length and, when it is one,
    at the single element. *)
Definition list_set (xs : list string) : list string := nodup string_dec xs.

(** One [path.pop(0)]: the value popped; the loop test guarantees that the
    path is not empty. *)
Definition popped (path : list string) : string := hd "" path.

(** The [while] loop of [find_common_path] on the state [(paths,
    common_path)]; [None] when [fuel] iterations were not enough. *)
Fixpoint common_loop (fuel : nat) (paths : list (list string))
  (common_path : list string) : option (list string) :=
  match fuel with
  | O => None
  | S fuel' =>
      if existsb (fun path => (List.length path =? 0)%nat) paths
      then Some common_path
      else
        let next_segment := list_set (map popped paths) in
        let paths' := map (@tl string) paths in
        if (List.length next_segment =? 1)%nat
        then common_loop fuel' paths' (common_path ++ next_segment)%list
        else Some common_path
  end.

(** Every iteration that does not leave the loop shortens every path, so
    one more iteration than the first path has segments is enough (and one
    iteration when there is no path). *)
Definition loop_fuel (paths : list (list string)) : nat :=
  S (List.length (hd [] paths)).

(** [find_common_path]; [None] only if the loop ran out of fuel, which
    [find_common_path_total] excludes. *)
Definition find_common_path (paths : list string) : option string :=
  let paths := map (fun path => remove_all dq path) paths in
  let paths := map (fun path => split slash None path) paths in
  match common_loop (loop_fuel paths) paths [] with
  | Some common_path => Some (dq ++ join "/" common_path ++ "/" ++ dq)
  | None => None
  end.

(** The common path with its double quotes removed, as every user of
    [self.common_path] takes it. *)
Definition unquoted (common_path : string) : string :=
  remove_all dq common_path.

(** Line 93 of [perform_search]: the displayed form of one result. *)
Definition shorten (common_path : string) (result : Base.search_result)
  : Base.search_result :=
  (remove_all (unquoted common_path) (fst result),
   take MAX_RESULT_LINE_LENGTH (snd result)).

(** Line 118 of [open_and_highlight_file]: the location handed to the
    editor for a displayed locator. *)
Definition file_name_and_col (common_path locator : string) : string :=
  unquoted common_path ++ locator.

(** *** The result session *)

(** The string appended to the results for the quick panel. *)
Definition LIST_IN_VIEW : string := "``` List results in view ```".

(** An element of [self.results]: a shortened result, or the string
    [LIST_IN_VIEW]. *)
Inductive entry : Type :=
| Item (locator text : string)
| ListInView.

(** Calls into the editor, in the order they are made. *)
Inductive host_call : Type :=
| EraseRegions (file_name : string)
| FocusSavedView
| OpenFile (file_name_and_col : string) (transient : bool)
| AddRegions (file_name_and_col : string) (pattern : string)
| SearchInProjectResults (query : string) (results : list entry)
    (common_path : string).

Record state : Type := {
  results : list entry;
  last_search_string : string;
  last_selected_result_index : Z;
  common_path : string;
  calls : list host_call
}.

Definition set_results (st : state) (rs : list entry) : state :=
  {| results := rs;
     last_search_string := last_search_string st;
     last_selected_result_index := last_selected_result_index st;
     common_path := common_path st;
     calls := calls st |}.

Definition set_index (st : state) (i : Z) : state :=
  {| results := results st;
     last_search_string := last_search_string st;
     last_selected_result_index := i;
     common_path := common_path st;
     calls := calls st |}.

Definition call (st : state) (c : host_call) : state :=
  {| results := results st;
     last_search_string := last_search_string st;
     last_selected_result_index := last_selected_result_index st;
     common_path := common_path st;
     calls := (calls st ++ [c])%list |}.

(** [xs[i]] with Python's negative indices. *)
Definition index {A} (xs : list A) (i : Z) : result A :=
  let n := Z.of_nat (List.length xs) in
  let j := (if i <? 0 then n + i else i)%Z in
  if (j <? 0)%Z then raise IndexError
  else match nth_error xs (Z.to_nat j) with
       | Some x => ok x
       | None => raise IndexError
       end.

(** [e[0]] for an element of [self.results]: the locator of a result, the
    first character of the string. *)
Definition entry_0 (e : entry) : string :=
  match e with
  | Item locator _ => locator
  | ListInView => take 1 LIST_IN_VIEW
  end.

Section Session.

(** The editor's answer to the test of lines 126-127: is the file open in
    a view other than the active one. *)
Variable file_already_open : string -> bool.

(** [clear_markup]: the loop over [self.results[:-1]]; the editor decides
    whether the file is still open, the call is recorded either way. *)
Fixpoint erase_all (st : state) (rs : list entry) : state :=
  match rs with
  | [] => st
  | r :: rs' =>
      let file_name_and_col := unquoted (common_path st) ++ entry_0 r in
      let file_name := hd "" (split colon None file_name_and_col) in
      erase_all (call st (EraseRegions file_name)) rs'
  end.

Definition clear_markup (st : state) : state :=
  set_results (erase_all st (removelast (results st))) [].

(** [list_in_view]; [pop] of an empty list raises. *)
Definition list_in_view (st : state) : result state :=
  match results st with
  | [] => raise IndexError
  | _ :: _ =>
      let st' := set_results st (removelast (results st)) in
      ok (call st' (SearchInProjectResults (last_search_string st')
                      (results st') (unquoted (common_path st'))))
  end.

(** [open_and_highlight_file]. *)
Definition open_and_highlight_file (st : state) (file_no : Z)
  (transient : bool) : result state :=
  r <- index (results st) file_no ;;
  let file_name_and_col := unquoted (common_path st) ++ entry_0 r in
  let file_name :=
    if contains colon file_name_and_col
    then take (find colon file_name_and_col) file_name_and_col
    else file_name_and_col in
  if transient && file_already_open file_name then ok st
  else
    let st1 := call st (OpenFile file_name_and_col transient) in
    ok (call st1 (AddRegions file_name_and_col (last_search_string st))).

(** [on_highlighted]: the session after the call, and the exception if
    [open_and_highlight_file] raised; the index is stored before the file
    is opened, so it stays stored in that case. *)
Definition on_highlighted (st : state) (file_no : Z) : state * option exn :=
  let st := set_index st file_no in
  if negb (file_no =? -1)%Z
     && negb (file_no =? Z.of_nat (List.length (results st)) - 1)%Z
  then
    match open_and_highlight_file st file_no true with
    | inr st' => (st', None)
    | inl e => (st, Some e)
    end
  else (st, None).

(** [goto_result]. *)
Definition goto_result (st : state) (file_no : Z) : result state :=
  if (file_no =? -1)%Z then
    ok (call (clear_markup st) FocusSavedView)
  else if (file_no =? Z.of_nat (List.length (results st)) - 1)%Z then
    list_in_view st
  else
    open_and_highlight_file st file_no false.

(** [goto_relative_result]. *)
Definition goto_relative_result (st : state) (offset : Z) : result state :=
  if negb (is_empty (last_search_string st)) then
    let new_index := (last_selected_result_index st + offset)%Z in
    if ((0 <=? new_index)
        && (new_index <? Z.of_nat (List.length (results st)) - 1))%Z
    then goto_result (set_index st new_index) new_index
    else ok st
  else ok st.

End Session.

(** *** perform_search *)

(** [e[1]] for an element of [self.results]: the text of a result, the
    second character of the string. *)
Definition entry_1 (e : entry) : string :=
  match e with
  | Item _ text => text
  | ListInView => take 1 (drop 1 LIST_IN_VIEW)
  end.

(** What [SearchInProjectResultsCommand] reads of an element of the
    results it is handed: [result[0]] and [result[1]]. *)
Definition as_result (e : entry) : Base.search_result :=
  (entry_0 e, entry_1 e).

(** The windows [perform_search] opens. *)
Inductive dialog : Type :=
| MessageDialog (text : string)
| ErrorMessage (heading : string) (e : exn)
| QuickPanel (items : list entry) (selected_index : Z).

(** [e.__class__.__name__]. *)
Definition class_name (e : exn) : string :=
  match e with
  | RuntimeError _ => "RuntimeError"
  | ValueError => "ValueError"
  | IndexError => "IndexError"
  end.

Definition set_last_search_string (st : state) (text : string) : state :=
  {| results := results st;
     last_search_string := text;
     last_selected_result_index := last_selected_result_index st;
     common_path := common_path st;
     calls := calls st |}.

Definition set_common_path (st : state) (cp : string) : state :=
  {| results := results st;
     last_search_string := last_search_string st;
     last_selected_result_index := last_selected_result_index st;
     common_path := cp;
     calls := calls st |}.

Section Search.

(** [self.run_engine], which [FindDefinitionInProjectCommand] overrides. *)
Variable run_engine_method :
  string -> list string -> result (list Base.search_result).
(** [self.settings.get('search_in_project_show_list_by_default') ==
    'true']. *)
Variable show_list_by_default : bool.
(** [self.engine_name]. *)
Variable engine_name : string.
(** [self.window.folders()] and the file name of the active view. *)
Variable window_folders : list string.
Variable active_file_name : option string.
(** [os.path.dirname] and [os.path.expanduser("~")]. *)
Variable dirname : string -> string.
Variable home : string.

(** [search_folders]. *)
Definition search_folders : list string :=
  match window_folders with
  | [] =>
      match active_file_name with
      | Some filename =>
          if is_empty filename then [home] else [dirname filename]
      | None => [home]
      end
  | _ :: _ => window_folders
  end.

(** The [try] block of [perform_search], after [self.common_path] was
    set. *)
Definition search_and_show (st : state) (text : string)
  (folders : list string) : result (state * option dialog) :=
  rs <- run_engine_method text folders ;;
  match rs with
  | _ :: _ =>
      let shortened :=
        map (fun result =>
               Item (fst (shorten (common_path st) result))
                    (snd (shorten (common_path st) result))) rs in
      let st := set_results st shortened in
      if show_list_by_default then
        st' <- list_in_view st ;;
        ok (st', None)
      else
        let st := set_results st (results st ++ [ListInView])%list in
        ok (st, Some (QuickPanel (results st)
                        (last_selected_result_index st)))
  | [] => ok (set_results st [], Some (MessageDialog "No results"))
  end.

(** [perform_search]: the session afterwards and the window opened, if
    any.  [ErrorMessage heading e] stands for
    [sublime.error_message(heading + str(e))].  [None] only if the loop of
    [find_common_path] ran out of fuel. *)
Definition perform_search (st : state) (text : string)
  : option (state * option dialog) :=
  if is_empty text then Some (st, None)
  else
    let st :=
      if negb (String.eqb (last_search_string st) text)
      then set_index st 0 else st in
    let st := set_last_search_string st text in
    let folders := search_folders in
    match find_common_path folders with
    | None => None
    | Some cp =>
        let st := set_common_path st cp in
        match search_and_show st text folders with
        | inr out => Some out
        | inl e =>
            Some (set_results st [],
                  Some (ErrorMessage
                          (class_name e ++ " running search engine "
                             ++ engine_name ++ ":" ++ nl) e))
        end
    end.

End Search.

Section Engine.

Variable utf8_decode_ignore : list byte -> string.
Variable shlex_split : string -> result (list string).
Variable popen : list string -> string -> option Base.completed.
(** [self.engine]. *)
Variable engine : Base.engine.

(** [run_engine]: the engine is run with its default
    [keep_adjacents=True]. *)
Definition run_engine (text : string) (folders : list string)
  : result (list Base.search_result) :=
  Base.run utf8_decode_ignore shlex_split popen engine text folders true.

End Engine.

End SearchInProjectCommand.

(** ** search_in_project.py: FindDefinitionInProjectCommand *)

Module FindDefinitionInProjectCommand.

Import PyStr.

Section Engine.

(** [self.engine.run]. *)
Variable engine_run :
  string -> list string -> bool -> result (list Base.search_result).

Definition list_nat_eqb (a b : list nat) : bool :=
  if list_eq_dec Nat.eq_dec a b then true else false.

(** [text_raw[0].isalpha() and text_raw[0].upper() == text_raw[0]]. *)
Definition is_uppercasey (text_raw : string) : result bool :=
  match text_raw with
  | EmptyString => raise IndexError
  | String c _ => ok (isalpha c && list_nat_eqb (upper c) [code c])
  end.

(** The two [OrderedDict]s of patterns. *)
Definition type_patterns (text_raw : string) : list (string * string) :=
  let module_text := "^module +(" ++ text_raw ++ ")\s" in
  let data_text :=
    "^(data|newtype|type)\s+" ++ text_raw ++ "(\s+[a-z]+)*\s+(=|where)\s" in
  let class_text :=
    "^class\s+([a-zA-Z\s.\(\),]+=>\s+)?" ++ text_raw
      ++ "(\s+[a-z]+)*\s+where\s" in
  let first_constructor_text :=
    "(data|newtype) .+\s* =\s* " ++ text_raw ++ "\s" in
  let later_constructor_text := "\|\s* " ++ text_raw ++ "\s" in
  let constructor_text :=
    "(" ++ first_constructor_text ++ ")|(" ++ later_constructor_text ++ ")" in
  [ ("Module", module_text);
    ("Type def'n", data_text);
    ("Class def" ++ nl, class_text);
    ("Constructor", constructor_text) ].

Definition value_patterns (text_raw : string) : list (string * string) :=
  let value_annot_text := "^ *(" ++ text_raw ++ ")\s+::\s+." in
  let value_defn_text := "^ *(" ++ text_raw ++ ")\s+[^=$]*\s=\s" in
  let record_getter_text := " +[{,] +(" ++ text_raw ++ ")\s+::\s+" in
  [ ("Value type", value_annot_text);
    ("Value def'n", value_defn_text);
    ("Record getter", record_getter_text) ].

(** ['{}: {}'.format(pattern_name, c)] on every result of one pattern. *)
Definition annotate (pattern_name : string)
  (pat_results : list Base.search_result) : list Base.search_result :=
  map (fun pc => (fst pc, pattern_name ++ ": " ++ snd pc)) pat_results.

(** The loop over [patterns.items()]. *)
Fixpoint run_patterns (patterns : list (string * string))
  (folders : list string) (results : list Base.search_result)
  : result (list Base.search_result) :=
  match patterns with
  | [] => ok results
  | (pattern_name, pattern) :: patterns' =>
      pat_results <- engine_run pattern folders false ;;
      run_patterns patterns' folders
        (results ++ annotate pattern_name pat_results)%list
  end.

Definition run_engine (text_raw : string) (folders : list string)
  : result (list Base.search_result) :=
  let text_raw := strip text_raw in
  up <- is_uppercasey text_raw ;;
  let patterns :=
    if (up : bool) then type_patterns text_raw else value_patterns text_raw in
  run_patterns patterns folders [].

End Engine.

End FindDefinitionInProjectCommand.

(** ** search_in_project.py: SearchInProjectResultsCommand *)

Module SearchInProjectResultsCommand.

Import PyStr.

Definition format_result (common_path filename : string)
  (lines : list (string * string)) : string :=
  let lines_text :=
    join nl (map (fun lt => "  " ++ fst lt ++ ": " ++ snd lt) lines) in
  common_path ++ filename ++ ":" ++ nl ++ lines_text ++ nl.

(** [grouped_by_filename[filename].append(v)] on a [defaultdict(list)];
    the dictionary is kept in insertion order, the order in which Python
    (since 3.7) iterates over it. *)
Fixpoint dict_append (filename : string) (v : string * string)
  (d : list (string * list (string * string)))
  : list (string * list (string * string)) :=
  match d with
  | [] => [(filename, [v])]
  | (k, vs) :: d' =>
      if String.eqb k filename
      then (k, (vs ++ [v])%list) :: d'
      else (k, vs) :: dict_append filename v d'
  end.

(** The grouping loop; unpacking a split without colon into two names
    raises [ValueError]. *)
Fixpoint group_results (results : list Base.search_result)
  (grouped_by_filename : list (string * list (string * string)))
  : result (list (string * list (string * string))) :=
  match results with
  | [] => ok grouped_by_filename
  | result :: results' =>
      match split colon (Some 1) (fst result) with
      | [filename; location] =>
          group_results results'
            (dict_append filename (location, snd result) grouped_by_filename)
      | _ => raise ValueError
      end
  end.

Definition results_header (query : string) (line_count file_count : nat)
  : string :=
  "Search In Project results for " ++ dq ++ query ++ dq ++ " ("
    ++ of_nat line_count ++ " lines in " ++ of_nat file_count ++ " files):"
    ++ nl ++ nl.

Definition format_results (common_path : string)
  (results : list Base.search_result) (query : string) : result string :=
  grouped_by_filename <- group_results results [] ;;
  let line_count := List.length results in
  let file_count := List.length grouped_by_filename in
  let file_results :=
    map (fun kv => format_result common_path (fst kv) (snd kv))
        grouped_by_filename in
  ok (results_header query line_count file_count ++ join nl file_results).

(** [run]: the text inserted in the new view; an exception of
    [format_results] is not caught. *)
Definition run (common_path : string) (results : list Base.search_result)
  (query : string) : result string :=
  results_text <- format_results common_path results query ;;
  ok results_text.

End SearchInProjectResultsCommand.
(** ** Definitions used to state the properties *)

Module Spec.

Import PyStr.

(** Every character of [s] satisfies [p]. *)
Fixpoint all_chars (p : ascii -> bool) (s : string) : bool :=
  match s with
  | EmptyString => true
  | String c s' => p c && all_chars p s'
  end.

(** A split with more than two fields. *)
Definition long_enough (line : list string) : bool :=
  (2 <? List.length line)%nat.

(** The file name and the line number string of a line part. *)
Definition fname (line_part : list string) : string := nth 0 line_part "".
Definition line_nr_str (line_part : list string) : string :=
  nth 1 line_part "".

(** [this] is on the line after [last] in the same file: both line numbers
    are numeric and differ by one. *)
Definition next_line (last this : list string) : Prop :=
  fname this = fname last /\
  exists n : Z,
    int (line_nr_str last) = Some n /\
    int (line_nr_str this) = Some (n + 1)%Z.

(** The deduplication as the specification words it: a line is compared
    with the last line that was kept. *)
Fixpoint dedup_against_kept (kept : list string) (rest : list (list string))
  : list (list string) :=
  match rest with
  | [] => []
  | this :: rest' =>
      if Base.adjacent kept this
      then dedup_against_kept kept rest'
      else this :: dedup_against_kept this rest'
  end.

Definition filter_against_kept (line_parts : list (list string))
  : list (list string) :=
  match filter (fun line => (2 <? List.length line)%nat) line_parts with
  | [] => []
  | r0 :: rest => r0 :: dedup_against_kept r0 rest
  end.

(** Two line parts name the same line of the same file. *)
Definition same_line (a b : list string) : bool :=
  String.eqb (fname a) (fname b) &&
  match int (line_nr_str a), int (line_nr_str b) with
  | Some m, Some n => (m =? n)%Z
  | _, _ => false
  end.

(** No two line parts of the sequence name the same line of the same
    file. *)
Fixpoint distinct_lines (line_parts : list (list string)) : bool :=
  match line_parts with
  | [] => true
  | a :: rest => negb (existsb (same_line a) rest) && distinct_lines rest
  end.

(** [l] is a list of leading segments of [p]. *)
Definition is_prefix (l p : list string) : Prop :=
  exists rest, p = (l ++ rest)%list.

(** The classification as the specification words it: on the first
    character of the queried symbol as it was received. *)
Definition type_like_untrimmed (symbol : string) : bool :=
  match symbol with
  | String c _ =>
      isalpha c &&
      FindDefinitionInProjectCommand.list_nat_eqb (upper c) [code c]
  | EmptyString => false
  end.

(** The results of one category, labelled. *)
Definition labelled (category : string) (rs : list Base.search_result)
  : list Base.search_result :=
  map (fun r => (fst r, category ++ ": " ++ snd r)) rs.

(** The index lies in the range of the results, the trailing entry
    excluded. *)
Definition in_result_range (st : SearchInProjectCommand.state) (i : Z)
  : Prop :=
  (0 <= i <= Z.of_nat (List.length (SearchInProjectCommand.results st)) - 2)%Z.

(** The file name of a locator: what precedes its first colon; and its
    location: what follows that colon. *)
Definition filename_of (locator : string) : string :=
  take (find colon locator) locator.
Definition location_of (locator : string) : string :=
  drop (S (find colon locator)) locator.

(** The distinct elements of a list, in the order of their first
    occurrence. *)
Fixpoint first_seen (xs : list string) : list string :=
  match xs with
  | [] => []
  | x :: xs' => x :: filter (fun y => negb (String.eqb y x)) (first_seen xs')
  end.

Definition concat_str (parts : list string) : string :=
  fold_right append EmptyString parts.

(** The results of one file, in result order. *)
Definition results_of (filename : string) (results : list Base.search_result)
  : list Base.search_result :=
  filter (fun r => String.eqb (filename_of (fst r)) filename) results.

(** The group of one file: its name with the locations and texts of its
    results. *)
Definition group_of (rs : list Base.search_result) (f : string)
  : string * list (string * string) :=
  (f, map (fun r => (location_of (fst r), snd r)) (results_of f rs)).

(** The block of one file in the listing: the path and a colon on one
    line, then one line per result of the file. *)
Definition file_block (common_path : string)
  (results : list Base.search_result) (filename : string) : string :=
  common_path ++ filename ++ ":" ++ nl
    ++ concat_str
         (map (fun r => "  " ++ location_of (fst r) ++ ": " ++ snd r ++ nl)
              (results_of filename results)).

(** The listing document: the header, then the blocks of the files in
    first-seen order, separated by a line break. *)
Definition listing (common_path : string)
  (results : list Base.search_result) (query : string) : string :=
  let files := first_seen (map (fun r => filename_of (fst r)) results) in
  "Search In Project results for " ++ dq ++ query ++ dq ++ " ("
    ++ of_nat (List.length results) ++ " lines in "
    ++ of_nat (List.length files) ++ " files):" ++ nl ++ nl
    ++ join nl (map (file_block common_path results) files).

(** The header as the specification words it. *)
Definition claimed_header (query : string) (lines files : nat) : string :=
  "Search results for " ++ dq ++ query ++ dq ++ " ("
    ++ of_nat lines ++ " lines in " ++ of_nat files ++ " files):" ++ nl ++ nl.

(** [a] is [b] with some elements left out, the order kept. *)
Inductive subseq {A : Type} : list A -> list A -> Prop :=
| subseq_nil : subseq [] []
| subseq_skip x a b : subseq a b -> subseq a (x :: b)
| subseq_keep x a b : subseq a b -> subseq (x :: a) (x :: b).

(** The entry is a result, not the trailing string. *)
Definition is_item (e : SearchInProjectCommand.entry) : bool :=
  match e with
  | SearchInProjectCommand.Item _ _ => true
  | SearchInProjectCommand.ListInView => false
  end.

(** The entry displayed for a result of the engine. *)
Definition displayed (common_path : string) (r : Base.search_result)
  : SearchInProjectCommand.entry :=
  SearchInProjectCommand.Item
    (fst (SearchInProjectCommand.shorten common_path r))
    (snd (SearchInProjectCommand.shorten common_path r)).

(** The session when [perform_search] starts the engine: the selected
    index (reset for a new query), the query and the common path are
    already stored. *)
Definition started (st : SearchInProjectCommand.state) (text cp : string)
  : SearchInProjectCommand.state :=
  SearchInProjectCommand.set_common_path
    (SearchInProjectCommand.set_last_search_string
       (if negb (String.eqb (SearchInProjectCommand.last_search_string st)
                            text)
        then SearchInProjectCommand.set_index st 0 else st) text) cp.

(** The file of an entry, as [clear_markup] names it to the editor: the
    common path and the locator up to the first colon. *)
Definition marked_file (common_path : string)
  (e : SearchInProjectCommand.entry) : string :=
  hd "" (split colon None
           (SearchInProjectCommand.unquoted common_path
              ++ SearchInProjectCommand.entry_0 e)).

(** The file of a location, as [open_and_highlight_file] compares it with
    the open views. *)
Definition file_of (file_name_and_col : string) : string :=
  if contains colon file_name_and_col
  then take (find colon file_name_and_col) file_name_and_col
  else file_name_and_col.

(** The categories the planner searches for a trimmed symbol that
    begins with [c]. *)
Definition categories (c : ascii) (symbol : string)
  : list (string * string) :=
  if isalpha c && FindDefinitionInProjectCommand.list_nat_eqb (upper c) [code c]
  then FindDefinitionInProjectCommand.type_patterns symbol
  else FindDefinitionInProjectCommand.value_patterns symbol.

(** A result with its locator cut at the first colon: file name,
    location, text. *)
Definition cut (r : Base.search_result) : string * string * string :=
  (filename_of (fst r), location_of (fst r), snd r).

(** The entries of a dictionary of groups, each with its key. *)
Definition entries_of (d : list (string * list (string * string)))
  : list (string * string * string) :=
  concat (map (fun kv => map (fun lt => (fst kv, fst lt, snd lt)) (snd kv))
              d).

(** Every line part of [rest] is on the line after the one before it,
    beginning after [last], in the same file. *)
Fixpoint consecutive (last : list string) (rest : list (list string))
  : Prop :=
  match rest with
  | [] => True
  | this :: rest' => next_line last this /\ consecutive this rest'
  end.

(** What [perform_search] reads besides the session: the engine
    method, the settings and the editor's window. *)
Record setup : Type := {
  run_engine_method :
    string -> list string -> result (list Base.search_result);
  show_list_by_default : bool;
  engine_name : string;
  window_folders : list string;
  active_file_name : option string;
  dirname : string -> string;
  home : string
}.

(** [search_folders] and [perform_search] in a given setup. *)
Definition folders (s : setup) : list string :=
  SearchInProjectCommand.search_folders (window_folders s)
    (active_file_name s) (dirname s) (home s).

Definition perform (s : setup) (st : SearchInProjectCommand.state)
  (text : string)
  : option (SearchInProjectCommand.state
            * option SearchInProjectCommand.dialog) :=
  SearchInProjectCommand.perform_search (run_engine_method s)
    (show_list_by_default s) (engine_name s) (window_folders s)
    (active_file_name s) (dirname s) (home s) st text.

(** The heading of the error window. *)
Definition error_heading (s : setup) (e : exn) : string :=
  SearchInProjectCommand.class_name e ++ " running search engine "
    ++ engine_name s ++ ":" ++ nl.

End Spec.

(** ** Sample collaborators, for concrete runs *)

Module Sample.

Import PyStr.

(** A decoder that agrees with UTF-8 on ASCII input: the bytes below
    0x80 are kept, the others are ignored. *)
Fixpoint decode_ascii (bs : list byte) : string :=
  match bs with
  | [] => EmptyString
  | b :: bs' =>
      let c := ascii_of_byte b in
      if (code c <? 128)%nat then String c (decode_ascii bs')
      else decode_ascii bs'
  end.

(** A tokenizer for options separated by spaces: what [shlex.split]
    does on a string without quote and without backslash.  A string with
    one of them is refused with [ValueError], as [shlex.split] refuses an
    unbalanced quote. *)
Definition words (s : string) : result (list string) :=
  if contains "'"%char s || contains dquote s || contains "\"%char s
  then raise ValueError
  else ok (filter (fun w => negb (is_empty w)) (split " "%char None s)).


Definition grep : Base.engine :=
  {| Base.path_to_executable := "grep";
     Base.mandatory_options := "-rn";
     Base.common_options := "-I" |}.

(** A child that exits with status 2 and writes only to its error
    stream. *)
Definition popen_exit_2 (arguments : list string) (cwd : string)
  : option Base.completed :=
  Some {| Base.returncode := 2;
          Base.output := [];
          Base.error := list_byte_of_string "no such directory" |}.

(** An engine that reports one hit per pattern, in the file named like
    the pattern. *)
Definition echo (pattern : string) (folders : list string)
  (keep_adjacents : bool) : result (list Base.search_result) :=
  ok [(pattern, "hit")].

(** An engine that answers like [echo] when asked to merge adjacent
    lines and raises when asked to keep them. *)
Definition echo_merging (pattern : string) (folders : list string)
  (keep_adjacents : bool) : result (list Base.search_result) :=
  if keep_adjacents then raise ValueError else ok [(pattern, "hit")].

(** An engine that answers like [echo] on the patterns anchored at the
    start of a line and fails on the others. *)
Definition echo_anchored (pattern : string) (folders : list string)
  (keep_adjacents : bool) : result (list Base.search_result) :=
  if startswith "^" pattern
  then ok [(pattern, "hit")] else raise (RuntimeError "bad pattern").

(** No file is open in another view. *)
Definition none_open (file_name : string) : bool := false.

(** A session with one result and the trailing entry, after the trailing
    entry was highlighted in the quick panel. *)
Definition on_trailing_entry : SearchInProjectCommand.state :=
  {| SearchInProjectCommand.results :=
       [SearchInProjectCommand.Item "a.txt:1" "needle";
        SearchInProjectCommand.ListInView];
     SearchInProjectCommand.last_search_string := "needle";
     SearchInProjectCommand.last_selected_result_index := 1;
     SearchInProjectCommand.common_path := dq ++ "/r/" ++ dq;
     SearchInProjectCommand.calls := [] |}.


(** No executable can be launched. *)
Definition popen_missing (arguments : list string) (cwd : string)
  : option Base.completed := None.

(** An engine that finds the given results whatever it is asked. *)
Definition finds (rs : list Base.search_result) (pattern : string)
  (folders : list string) : result (list Base.search_result) := ok rs.

(** An engine that raises. *)
Definition raises (e : exn) (pattern : string) (folders : list string)
  : result (list Base.search_result) := raise e.

(** A new session. *)
Definition fresh : SearchInProjectCommand.state :=
  {| SearchInProjectCommand.results := [];
     SearchInProjectCommand.last_search_string := "";
     SearchInProjectCommand.last_selected_result_index := 0;
     SearchInProjectCommand.common_path := "";
     SearchInProjectCommand.calls := [] |}.

(** The directory part of a path with separators. *)
Definition dirname (path : string) : string :=
  join "/" (removelast (split slash None path)).

(** A window with one project folder, the quick panel as the way to
    show results, and an engine that finds the given results. *)
Definition project (rs : list Base.search_result) : Spec.setup :=
  {| Spec.run_engine_method := finds rs;
     Spec.show_list_by_default := false;
     Spec.engine_name := "grep";
     Spec.window_folders := ["/r"];
     Spec.active_file_name := None;
     Spec.dirname := dirname;
     Spec.home := "/home/u" |}.

(** The same with another engine method and the listing shown at
    once. *)
Definition project_with
  (method : string -> list string -> result (list Base.search_result))
  (show : bool) : Spec.setup :=
  {| Spec.run_engine_method := method;
     Spec.show_list_by_default := show;
     Spec.engine_name := "grep";
     Spec.window_folders := ["/r"];
     Spec.active_file_name := None;
     Spec.dirname := dirname;
     Spec.home := "/home/u" |}.

End Sample.
(** * Properties *)

Import PyStr.

(** ** The engine adapter *)

Lemma run_launched decode shlex popen self query cwd folders keep
  arguments pipe :
  Base._arguments shlex self query (cwd :: folders) = ok arguments ->
  popen arguments cwd = Some pipe ->
  Base.run decode shlex popen self query (cwd :: folders) keep
  = ok (Base._parse_output (Base._sanitize_output decode (Base.output pipe))
          keep).
Proof.
  intros Ha Hp. unfold Base.run. rewrite Ha. cbn [bind ok].
  rewrite Hp. reflexivity.
Qed.

(** C1: a child that exits with status 2 and the error stream
    [no such directory] does not make [run] raise: the call returns the
    results parsed from the (empty) output. *)
Theorem run_exit_2_returns_results :
  Base.run Sample.decode_ascii Sample.words Sample.popen_exit_2
           Sample.grep "needle" ["/no/such"] true
  = ok [].
Proof.
  exact (run_launched Sample.decode_ascii Sample.words Sample.popen_exit_2
           Sample.grep "needle" "/no/such" [] true _ _ eq_refl eq_refl).
Qed.

(** ** Strings: splitting and scanning *)

Lemma split_not_nil sep m s : split sep m s <> [].
Proof.
  revert m; induction s as [|c s IH]; intros m; simpl; [discriminate|].
  destruct (Ascii.eqb c sep); [destruct m as [[|k]|]|]; try discriminate;
    destruct (split sep _ s); discriminate.
Qed.

Lemma split_without sep m s :
  contains sep s = false -> split sep m s = [s].
Proof.
  revert m; induction s as [|c s IH]; intros m H; simpl in *; [reflexivity|].
  apply orb_false_iff in H as [Hc Hs]. rewrite Hc.
  rewrite (IH m Hs). reflexivity.
Qed.

Lemma split_zero sep s : split sep (Some 0) s = [s].
Proof.
  induction s as [|c s IH]; simpl; [reflexivity|].
  rewrite IH. destruct (Ascii.eqb c sep); reflexivity.
Qed.

Lemma split_at_first sep m a b :
  contains sep a = false ->
  split sep m (a ++ String sep b)
  = match m with
    | Some O => [a ++ String sep b]
    | Some (S k) => a :: split sep (Some k) b
    | None => a :: split sep None b
    end.
Proof.
  revert m; induction a as [|c a IH]; intros m H; simpl in *.
  - rewrite Ascii.eqb_refl. destruct m as [[|k]|]; try reflexivity.
    rewrite split_zero. reflexivity.
  - apply orb_false_iff in H as [Hc Ha]. rewrite Hc.
    rewrite (IH m Ha). destruct m as [[|k]|]; reflexivity.
Qed.

Lemma span_run p a c b :
  Spec.all_chars p a = true -> p c = false ->
  span p (a ++ String c b) = (a, String c b).
Proof.
  intros Ha Hc; induction a as [|x a IH]; simpl in *.
  - rewrite Hc. reflexivity.
  - apply andb_true_iff in Ha as [Hx Ha]. rewrite Hx, (IH Ha). reflexivity.
Qed.

Lemma no_colon_run s :
  contains colon s = false ->
  Spec.all_chars (fun c => negb (Ascii.eqb c colon)) s = true.
Proof.
  induction s as [|c s IH]; simpl; intros H; [reflexivity|].
  apply orb_false_iff in H as [Hc Hs]. rewrite Hc, (IH Hs). reflexivity.
Qed.

Lemma digits_no_char c s :
  isdigit c = false -> Spec.all_chars isdigit s = true ->
  contains c s = false.
Proof.
  intros Hc; induction s as [|x s IH]; simpl; intros H; [reflexivity|].
  apply andb_true_iff in H as [Hx Hs]. rewrite (IH Hs), orb_false_r.
  destruct (Ascii.eqb_spec x c); [congruence|reflexivity].
Qed.

Lemma contains_app c a b :
  contains c (a ++ b) = contains c a || contains c b.
Proof.
  induction a as [|x a IH]; simpl; [reflexivity|].
  rewrite IH, orb_assoc. reflexivity.
Qed.

Lemma is_empty_false s : s <> "" -> is_empty s = false.
Proof. destruct s; [congruence|reflexivity]. Qed.

Lemma append_assoc (a b c : string) : (a ++ b) ++ c = a ++ b ++ c.
Proof. induction a as [|x a IH]; simpl; [reflexivity|]. now rewrite IH. Qed.

Lemma has_column_info_formatted path line col text :
  path <> "" -> contains colon path = false ->
  line <> "" -> Spec.all_chars isdigit line = true ->
  col <> "" -> Spec.all_chars isdigit col = true ->
  Base.HAS_COLUMN_INFO (path ++ ":" ++ line ++ ":" ++ col ++ ":" ++ text)
  = true.
Proof.
  intros Hp Hpc Hl Hld Hc Hcd. unfold Base.HAS_COLUMN_INFO. simpl.
  rewrite (span_run _ path colon) by
    (auto using no_colon_run; now rewrite Ascii.eqb_refl).
  rewrite (is_empty_false _ Hp). simpl.
  rewrite (span_run _ line colon) by (auto; reflexivity).
  rewrite (is_empty_false _ Hl). simpl.
  rewrite (span_run _ col colon) by (auto; reflexivity).
  rewrite (is_empty_false _ Hc). reflexivity.
Qed.

Lemma split_formatted path line col text :
  contains colon path = false ->
  Spec.all_chars isdigit line = true ->
  Spec.all_chars isdigit col = true ->
  split colon (Some 3) (path ++ ":" ++ line ++ ":" ++ col ++ ":" ++ text)
  = [path; line; col; text].
Proof.
  intros Hp Hl Hc. simpl.
  rewrite (split_at_first colon (Some 3) path) by assumption.
  rewrite (split_at_first colon (Some 2) line)
    by (apply digits_no_char; [reflexivity|assumption]).
  rewrite (split_at_first colon (Some 1) col)
    by (apply digits_no_char; [reflexivity|assumption]).
  rewrite split_zero. reflexivity.
Qed.

(** ** The field-count filter *)

Lemma filter_adjacent_incl last rest p :
  In p (Base.filter_adjacent last rest) -> In p rest.
Proof.
  revert last; induction rest as [|this rest IH]; intros last H; simpl in *;
    [assumption|].
  destruct (Base.adjacent last this); [right; eauto|].
  destruct H as [H|H]; [left; assumption|right; eauto].
Qed.

Lemma filter_lines_incl line_parts keep p :
  In p (Base._filter_lines_without_matches line_parts keep) ->
  In p line_parts /\ (2 < List.length p)%nat.
Proof.
  unfold Base._filter_lines_without_matches.
  set (r := filter _ line_parts).
  assert (Hr : forall q, In q r -> In q line_parts /\ (2 < List.length q)%nat).
  { intros q Hq. apply filter_In in Hq as [Hq Hl].
    split; [assumption|]. now apply Nat.ltb_lt. }
  destruct keep; simpl; [apply Hr|].
  destruct r as [|r0 rest]; simpl; [tauto|].
  intros [H|H]; apply Hr; [left; assumption|].
  right. eapply filter_adjacent_incl; eassumption.
Qed.

Lemma filter_lines_dropped line_parts keep :
  Base._filter_lines_without_matches line_parts keep
  = Base._filter_lines_without_matches (filter Spec.long_enough line_parts) keep.
Proof.
  unfold Base._filter_lines_without_matches, Spec.long_enough.
  set (f := fun line : list string => (2 <? List.length line)%nat).
  assert (E : filter f (filter f line_parts) = filter f line_parts).
  { induction line_parts as [|x l IH]; simpl; [reflexivity|].
    destruct (f x) eqn:Hx; simpl; [rewrite Hx, IH|]; auto. }
  rewrite E. reflexivity.
Qed.

(** ** The output parser *)

(** C6: for every valid tuple (a non-empty path without colon or line
    break, line and column non-empty strings of digits, a text without
    line break), parsing the single line [path:line:col:text] yields
    exactly one result, with the locator [path:line:col] and the trimmed
    text; every line whose split has two fields or fewer is dropped
    (removing those lines beforehand changes nothing, and what the filter
    yields has more than two fields), and an empty output yields no
    result. *)
Theorem parse_formatted_line :
  (forall path line col text keep,
      path <> "" -> contains colon path = false ->
      contains newline path = false ->
      line <> "" -> Spec.all_chars isdigit line = true ->
      col <> "" -> Spec.all_chars isdigit col = true ->
      contains newline text = false ->
      Base._parse_output (path ++ ":" ++ line ++ ":" ++ col ++ ":" ++ text)
                         keep
      = [(path ++ ":" ++ line ++ ":" ++ col, strip text)]) /\
  (forall line_parts keep,
      Base._filter_lines_without_matches line_parts keep
      = Base._filter_lines_without_matches
          (filter Spec.long_enough line_parts) keep /\
      forall p, In p (Base._filter_lines_without_matches line_parts keep) ->
                In p line_parts /\ (2 < List.length p)%nat) /\
  (forall keep, Base._parse_output "" keep = []).
Proof.
  split; [|split].
  - intros path line col text keep Hp Hpc Hpn Hl Hld Hc Hcd Htn.
    unfold Base._parse_output.
    rewrite split_without.
    2:{ rewrite !contains_app. simpl.
        rewrite Hpn, Htn, !(digits_no_char newline) by (auto; reflexivity).
        reflexivity. }
    cbn [map]. unfold Base.line_split.
    rewrite has_column_info_formatted, split_formatted by assumption.
    destruct keep; reflexivity.
  - intros line_parts keep. split.
    + apply filter_lines_dropped.
    + intros p. apply filter_lines_incl.
  - intros [|]; reflexivity.
Qed.

Lemma parse_formatted_line_witness :
  Base._parse_output "src/a.py:12:3: x = 1 " false
  = [("src/a.py:12:3", "x = 1")].
Proof.
  apply (proj1 parse_formatted_line "src/a.py" "12" "3" " x = 1 " false);
    first [discriminate | reflexivity].
Defined.

(** ** The adjacency filter *)

Lemma adjacent_next_line last this :
  Base.adjacent last this = true <-> Spec.next_line last this.
Proof.
  unfold Base.adjacent, Spec.next_line, Spec.fname, Spec.line_nr_str.
  rewrite andb_true_iff, String.eqb_eq. split.
  - intros [Hf Hn]. split; [assumption|].
    destruct (int (nth 1 this "")) as [a|]; [|discriminate].
    destruct (int (nth 1 last "")) as [b|]; [|discriminate].
    apply Z.eqb_eq in Hn. subst a. exists b. auto.
  - intros [Hf [n [Hl Ht]]]. split; [assumption|].
    rewrite Hl, Ht. apply Z.eqb_refl.
Qed.

Lemma adjacent_not_numeric last this :
  int (Spec.line_nr_str last) = None \/ int (Spec.line_nr_str this) = None ->
  Base.adjacent last this = false.
Proof.
  unfold Base.adjacent, Spec.line_nr_str. intros [H|H]; rewrite H.
  - destruct (int (nth 1 this "")); apply andb_false_r.
  - apply andb_false_r.
Qed.

Lemma filter_adjacent_pairs last rest :
  Base.filter_adjacent last rest
  = map snd (filter (fun pc => negb (Base.adjacent (fst pc) (snd pc)))
               (combine (last :: rest) rest)).
Proof.
  revert last; induction rest as [|this rest IH]; intros last;
    [reflexivity|].
  cbn [Base.filter_adjacent combine filter fst snd].
  rewrite (IH this). destruct (Base.adjacent last this); reflexivity.
Qed.

(** C2, the claim as stated fails: of the lines 1, 2, 3 of one file only
    line 1 is kept.  Line 3 is one greater than line 2, which was
    skipped, and not one greater than line 1, the only result kept before
    it, so the comparison with the preceding kept result would keep it. *)
Lemma filter_kept_counterexample :
  let l1 := ["a.txt"; "1"; "x"] in
  let l2 := ["a.txt"; "2"; "y"] in
  let l3 := ["a.txt"; "3"; "z"] in
  Base._filter_lines_without_matches [l1; l2; l3] false = [l1] /\
  ~ Spec.next_line l1 l3 /\
  Spec.filter_against_kept [l1; l2; l3] = [l1; l3] /\
  Base._filter_lines_without_matches [l1; l2; l3] false
  <> Spec.filter_against_kept [l1; l2; l3].
Proof.
  cbv zeta. repeat split; try reflexivity; try discriminate.
  intros H. apply adjacent_next_line in H. discriminate.
Qed.

(** C2 (amended): with [keep_adjacents] false the first line (with more
    than two fields) is always kept, and each subsequent line is skipped
    exactly when its file path equals the file path of the line
    immediately before it in the input, kept or not, and its numeric line
    number is exactly one greater than that line's; a non-numeric line
    number on either side means the line is kept. *)
Theorem filter_compares_with_previous_line :
  (forall line_parts,
      let r := filter Spec.long_enough line_parts in
      Base._filter_lines_without_matches line_parts false
      = match r with
        | [] => []
        | r0 :: _ =>
            r0 :: map snd
                    (filter (fun pc => negb (Base.adjacent (fst pc) (snd pc)))
                       (combine r (tl r)))
        end) /\
  (forall last this,
      Base.adjacent last this = true <-> Spec.next_line last this) /\
  (forall last this,
      int (Spec.line_nr_str last) = None \/
      int (Spec.line_nr_str this) = None ->
      Base.adjacent last this = false).
Proof.
  split; [|split].
  - intros line_parts r. unfold Base._filter_lines_without_matches.
    fold Spec.long_enough. fold r. cbn [negb].
    destruct r as [|r0 rest]; [reflexivity|].
    rewrite filter_adjacent_pairs. reflexivity.
  - apply adjacent_next_line.
  - apply adjacent_not_numeric.
Qed.

Lemma filter_compares_with_previous_line_witness :
  Base.adjacent ["a.txt"; "7"; "x"] ["a.txt"; "line"; "y"] = false.
Proof.
  apply (proj2 (proj2 filter_compares_with_previous_line)).
  right. reflexivity.
Defined.

Lemma filter_all_true {A} (p : A -> bool) (l : list A) :
  (forall x, In x l -> p x = true) -> filter p l = l.
Proof.
  induction l as [|x l IH]; intros H; simpl; [reflexivity|].
  rewrite (H x (or_introl eq_refl)), IH; [reflexivity|].
  intros y Hy. apply H. now right.
Qed.

Lemma same_line_of_adjacent k a b :
  Base.adjacent k a = true -> Base.adjacent k b = true ->
  Spec.same_line a b = true.
Proof.
  intros Ha Hb. apply adjacent_next_line in Ha as [Fa [n [Hk Hna]]].
  apply adjacent_next_line in Hb as [Fb [m [Hk' Hnb]]].
  rewrite Hk in Hk'. injection Hk' as <-.
  unfold Spec.same_line. rewrite Fa, Fb, String.eqb_refl, Hna, Hnb.
  apply Z.eqb_refl.
Qed.

Lemma distinct_lines_tail a rest y :
  Spec.distinct_lines (a :: rest) = true -> In y rest ->
  Spec.same_line a y = false.
Proof.
  simpl. intros H Hy. apply andb_true_iff in H as [H _].
  apply negb_true_iff in H.
  destruct (Spec.same_line a y) eqn:E; [|reflexivity].
  assert (existsb (Spec.same_line a) rest = true)
    by (apply existsb_exists; eauto).
  congruence.
Qed.

Lemma distinct_lines_filter p l :
  Spec.distinct_lines l = true -> Spec.distinct_lines (filter p l) = true.
Proof.
  induction l as [|a l IH]; intros H; simpl in *; [reflexivity|].
  apply andb_true_iff in H as [Ha Hl].
  destruct (p a); simpl; [|auto].
  rewrite (IH Hl), andb_true_r. apply negb_true_iff.
  apply negb_true_iff in Ha.
  destruct (existsb (Spec.same_line a) (filter p l)) eqn:E; [|reflexivity].
  apply existsb_exists in E as [y [Hy Hs]]. apply filter_In in Hy as [Hy _].
  assert (existsb (Spec.same_line a) l = true)
    by (apply existsb_exists; eauto).
  congruence.
Qed.

(** The second pass: [k] is the last line the first pass kept, [last] the
    line before [rest] in its input.  Either they are the same line, or
    the line [x] after [k] was skipped, and then no line of [rest] can be
    adjacent to [k] without naming the same line as [x]. *)
Lemma filter_adjacent_stable rest :
  forall k last,
    Spec.distinct_lines rest = true ->
    (k = last \/
     exists x, Base.adjacent k x = true /\
               forall y, In y rest -> Spec.same_line x y = false) ->
    Base.filter_adjacent k (Base.filter_adjacent last rest)
    = Base.filter_adjacent last rest.
Proof.
  induction rest as [|this rest IH]; intros k last Hd Hk; [reflexivity|].
  assert (Hd' : Spec.distinct_lines rest = true)
    by (simpl in Hd; apply andb_true_iff in Hd; tauto).
  cbn [Base.filter_adjacent].
  destruct (Base.adjacent last this) eqn:Hadj.
  - apply IH; [assumption|]. right.
    destruct Hk as [->|[x [Hx Hy]]].
    + exists this. split; [assumption|].
      intros y Hin. eapply distinct_lines_tail; eassumption.
    + exists x. split; [assumption|]. intros y Hin. apply Hy. now right.
  - cbn [Base.filter_adjacent].
    assert (Hk' : Base.adjacent k this = false).
    { destruct Hk as [->|[x [Hx Hy]]]; [assumption|].
      destruct (Base.adjacent k this) eqn:E; [|reflexivity].
      specialize (Hy this (or_introl eq_refl)).
      rewrite (same_line_of_adjacent k x this Hx E) in Hy. discriminate. }
    rewrite Hk'. f_equal. apply IH; auto.
Qed.

Lemma filter_lines_unfold line_parts :
  Base._filter_lines_without_matches line_parts false
  = match filter Spec.long_enough line_parts with
    | [] => []
    | r0 :: rest => r0 :: Base.filter_adjacent r0 rest
    end.
Proof. reflexivity. Qed.

(** C3, the claim as stated fails: a first pass over the lines 1, 2, 2 of
    one file skips the first line 2 and keeps the second one (compared
    with the skipped line 2); a second pass compares it with line 1 and
    skips it. *)
Lemma filter_twice_counterexample :
  let line_parts :=
    [["a.txt"; "1"; "x"]; ["a.txt"; "2"; "y"]; ["a.txt"; "2"; "z"]] in
  let once := Base._filter_lines_without_matches line_parts false in
  once = [["a.txt"; "1"; "x"]; ["a.txt"; "2"; "z"]] /\
  Base._filter_lines_without_matches once false = [["a.txt"; "1"; "x"]] /\
  Base._filter_lines_without_matches once false <> once.
Proof.
  cbv zeta. repeat split; try reflexivity; discriminate.
Qed.

(** C3 (amended): on every finite sequence of parsed line parts in which
    no two line parts have the same file path and the same numeric line
    number, the adjacency filter is idempotent: applying it, with
    [keep_adjacents] false, to its own output yields that output
    unchanged. *)
Theorem filter_idempotent_on_distinct_lines line_parts :
  Spec.distinct_lines line_parts = true ->
  Base._filter_lines_without_matches
    (Base._filter_lines_without_matches line_parts false) false
  = Base._filter_lines_without_matches line_parts false.
Proof.
  intros Hd.
  pose proof (distinct_lines_filter Spec.long_enough _ Hd) as Hr.
  rewrite (filter_lines_unfold
             (Base._filter_lines_without_matches line_parts false)).
  rewrite (filter_all_true Spec.long_enough).
  2:{ intros x Hx. apply filter_lines_incl in Hx as [_ Hx].
      now apply Nat.ltb_lt. }
  rewrite (filter_lines_unfold line_parts).
  destruct (filter Spec.long_enough line_parts) as [|r0 rest];
    [reflexivity|].
  f_equal. apply filter_adjacent_stable; [|now left].
  simpl in Hr. apply andb_true_iff in Hr. tauto.
Qed.

Lemma filter_idempotent_on_distinct_lines_witness :
  let line_parts :=
    [["a.txt"; "1"; "x"]; ["a.txt"; "2"; "y"]; ["a.txt"; "3"; "z"];
     ["banner"]; ["b.txt"; "5"; "w"]] in
  Base._filter_lines_without_matches
    (Base._filter_lines_without_matches line_parts false) false
  = Base._filter_lines_without_matches line_parts false.
Proof.
  cbv zeta. apply filter_idempotent_on_distinct_lines. reflexivity.
Defined.

(** ** The common path *)

Import SearchInProjectCommand.

Lemma list_set_same a xs :
  xs <> [] -> (forall x, In x xs -> x = a) -> list_set xs = [a].
Proof.
  unfold list_set. induction xs as [|x xs IH]; intros Hne Hall; [congruence|].
  assert (x = a) by (apply Hall; now left). subst x.
  simpl. destruct (in_dec string_dec a xs) as [Hin|Hnin].
  - apply IH; [intros ->; contradiction|]. intros y Hy. apply Hall. now right.
  - destruct xs as [|y xs]; [reflexivity|].
    exfalso. apply Hnin. left. apply Hall. right. now left.
Qed.

Lemma list_set_single xs :
  List.length (list_set xs) = 1 ->
  exists a, list_set xs = [a] /\ forall x, In x xs -> x = a.
Proof.
  unfold list_set. intros H.
  destruct (nodup string_dec xs) as [|a [|b l]] eqn:E; try discriminate.
  exists a. split; [reflexivity|]. intros x Hx.
  apply (nodup_In string_dec) in Hx. rewrite E in Hx.
  destruct Hx as [Hx|[]]. now symmetry.
Qed.

Lemma none_empty (paths : list (list string)) :
  existsb (fun path => (List.length path =? 0)%nat) paths = false ->
  forall p, In p paths -> exists s t, p = s :: t.
Proof.
  intros H p Hp. destruct p as [|s t]; [|eauto].
  assert (existsb (fun path => (List.length path =? 0)%nat) paths = true)
    by (apply existsb_exists; exists []; auto).
  congruence.
Qed.

Lemma common_loop_spec fuel :
  forall paths acc,
    paths <> [] -> List.length (hd [] paths) < fuel ->
    exists c,
      common_loop fuel paths acc = Some (acc ++ c)%list /\
      (forall p, In p paths -> Spec.is_prefix c p) /\
      (forall l, (forall p, In p paths -> Spec.is_prefix l p) -> Spec.is_prefix l c).
Proof.
  induction fuel as [|fuel IH]; intros paths acc Hne Hfuel; [lia|].
  cbn [common_loop].
  destruct (existsb _ paths) eqn:Hex.
  - exists []. rewrite app_nil_r. split; [reflexivity|]. split.
    + intros p _. now exists p.
    + intros l Hl. apply existsb_exists in Hex as [p [Hp Hlen]].
      destruct p; [|discriminate].
      destruct (Hl [] Hp) as [rest Hrest].
      destruct l; [now exists []|discriminate].
  - pose proof (none_empty paths Hex) as Hcons.
    destruct (List.length (list_set (map popped paths)) =? 1)%nat eqn:Hone.
    + apply Nat.eqb_eq, list_set_single in Hone as [a [Hset Hall]].
      rewrite Hset.
      destruct paths as [|p0 paths0]; [congruence|].
      destruct (IH (map (@tl string) (p0 :: paths0)) (acc ++ [a])%list)
        as [c [Hloop [Hpre Hmax]]].
      { discriminate. }
      { simpl in *. destruct p0; simpl in *; lia. }
      exists (a :: c). rewrite Hloop, <- app_assoc. split; [reflexivity|].
      assert (Hhead : forall p, In p (p0 :: paths0) -> p = a :: tl p).
      { intros p Hp. destruct (Hcons p Hp) as [s [t ->]]. simpl.
        f_equal. apply Hall. apply in_map_iff. exists (s :: t). auto. }
      split.
      * intros p Hp. destruct (Hpre (tl p)) as [rest Hrest].
        { now apply in_map. }
        exists rest. rewrite (Hhead p Hp). simpl. now rewrite <- Hrest.
      * intros l Hl. destruct l as [|x l]; [now exists (a :: c)|].
        assert (Hx : x = a).
        { destruct (Hl p0 (or_introl eq_refl)) as [rest Hrest].
          rewrite (Hhead p0 (or_introl eq_refl)) in Hrest.
          now injection Hrest. }
        subst x. destruct (Hmax l) as [rest Hrest].
        { intros q Hq. apply in_map_iff in Hq as [p [<- Hp]].
          destruct (Hl p Hp) as [rest Hrest]. exists rest.
          rewrite Hrest. reflexivity. }
        exists rest. simpl. now rewrite Hrest.
    + exists []. rewrite app_nil_r. split; [reflexivity|]. split.
      * intros p _. now exists p.
      * intros l Hl. destruct l as [|x l]; [now exists []|].
        exfalso. apply Nat.eqb_neq in Hone. apply Hone.
        rewrite (list_set_same x); [reflexivity| |].
        { destruct paths; [congruence|discriminate]. }
        intros y Hy. apply in_map_iff in Hy as [p [<- Hp]].
        destruct (Hl p Hp) as [rest ->]. reflexivity.
Qed.

(** The loop of [find_common_path] never runs out of fuel. *)
Lemma find_common_path_total paths :
  exists common_path, find_common_path paths = Some common_path.
Proof.
  unfold find_common_path.
  destruct paths as [|p paths]; [eexists; reflexivity|].
  set (ps := map _ (map _ (p :: paths))).
  destruct (common_loop_spec (loop_fuel ps) ps []) as [c [H _]].
  - discriminate.
  - unfold loop_fuel. lia.
  - rewrite H. eauto.
Qed.

Lemma join_cons sep w ws :
  join sep (w :: ws)
  = match ws with [] => w | _ :: _ => w ++ sep ++ join sep ws end.
Proof. destruct ws; reflexivity. Qed.

Lemma join_head_char sep c w ws :
  join sep (String c w :: ws) = String c (join sep (w :: ws)).
Proof. destruct ws; reflexivity. Qed.

(** Joining what [split] gives back the string. *)
Lemma join_split sep s : join (String sep "") (split sep None s) = s.
Proof.
  induction s as [|c s IH]; [reflexivity|]. cbn [split].
  destruct (Ascii.eqb_spec c sep) as [->|Hc].
  - rewrite join_cons. pose proof (split_not_nil sep None s) as Hne.
    destruct (split sep None s); [congruence|]. simpl in *. now rewrite IH.
  - pose proof (split_not_nil sep None s) as Hne.
    destruct (split sep None s) as [|w ws]; [congruence|].
    rewrite join_head_char, IH. reflexivity.
Qed.

Lemma startswith_app a b : startswith a (a ++ b) = true.
Proof.
  induction a as [|c a IH]; simpl; [reflexivity|].
  now rewrite Ascii.eqb_refl, IH.
Qed.

Lemma startswith_refl a : startswith a a = true.
Proof.
  induction a as [|c a IH]; simpl; [reflexivity|].
  now rewrite Ascii.eqb_refl, IH.
Qed.

Lemma startswith_app_l a b c : startswith (a ++ b) (a ++ c) = startswith b c.
Proof.
  induction a as [|x a IH]; simpl; [reflexivity|].
  now rewrite Ascii.eqb_refl, IH.
Qed.

Lemma startswith_join sep c rest :
  startswith (join sep c) (join sep (c ++ rest)) = true.
Proof.
  induction c as [|x c IH]; [reflexivity|].
  rewrite <- app_comm_cons, !join_cons.
  destruct c as [|y c].
  - simpl. destruct rest; [apply startswith_refl|apply startswith_app].
  - rewrite <- app_comm_cons in *. rewrite !startswith_app_l. exact IH.
Qed.

Lemma remove_from_skip old s :
  forall k, remove_from old k s = remove_from old 0 (drop k s).
Proof.
  induction s as [|c s IH]; intros [|k]; try reflexivity.
  cbn [remove_from drop]. apply IH.
Qed.

(** [remove_all] scans as [str.replace] does: an occurrence of [old] at
    the front is dropped whole and the scan resumes behind it, any other
    character is kept. *)
Lemma remove_all_cons old c s :
  old <> "" ->
  remove_all old (String c s)
  = if startswith old (String c s)
    then remove_all old (drop (String.length old) (String c s))
    else String c (remove_all old s).
Proof.
  intros H. unfold remove_all. rewrite (is_empty_false _ H).
  cbn [remove_from]. destruct (startswith old (String c s)); [|reflexivity].
  rewrite remove_from_skip. destruct old as [|a old]; [congruence|].
  cbn [String.length drop]. rewrite ?Nat.sub_0_r. simpl.
  rewrite ?Nat.sub_0_r. reflexivity.
Qed.

(** Removing one character: a filter on the characters. *)
Lemma remove_char_cons d c s :
  remove_all (String d "") (String c s)
  = if Ascii.eqb d c then remove_all (String d "") s
    else String c (remove_all (String d "") s).
Proof.
  unfold remove_all. simpl. rewrite andb_true_r.
  destruct (Ascii.eqb d c); reflexivity.
Qed.

Lemma remove_char_app d a b :
  remove_all (String d "") (a ++ b)
  = remove_all (String d "") a ++ remove_all (String d "") b.
Proof.
  induction a as [|c a IH]; [reflexivity|].
  cbn [append]. rewrite !remove_char_cons, IH.
  destruct (Ascii.eqb d c); reflexivity.
Qed.

Lemma remove_char_absent d s :
  contains d s = false -> remove_all (String d "") s = s.
Proof.
  induction s as [|c s IH]; intros H; [reflexivity|].
  simpl in H. apply orb_false_iff in H as [Hc Hs].
  rewrite remove_char_cons, (IH Hs), Ascii.eqb_sym, Hc. reflexivity.
Qed.

Lemma contains_remove_char d s :
  contains d (remove_all (String d "") s) = false.
Proof.
  induction s as [|c s IH]; [reflexivity|].
  rewrite remove_char_cons. destruct (Ascii.eqb d c) eqn:E; [exact IH|].
  simpl. rewrite Ascii.eqb_sym, E, IH. reflexivity.
Qed.

Lemma contains_split d sep m s w :
  contains d s = false -> In w (split sep m s) -> contains d w = false.
Proof.
  revert m w; induction s as [|c s IH]; intros m w H Hin.
  - destruct Hin as [<-|[]]. reflexivity.
  - simpl in H. apply orb_false_iff in H as [Hc Hs]. cbn [split] in Hin.
    destruct (if Ascii.eqb c sep then _ else None) as [rest|].
    + destruct Hin as [<-|Hin]; [reflexivity|eauto].
    + pose proof (IH m) as IHm.
      destruct (split sep m s) as [|x xs].
      * destruct Hin as [<-|[]]. simpl. now rewrite Hc.
      * destruct Hin as [<-|Hin].
        -- simpl. rewrite Hc. apply IHm; [assumption|now left].
        -- apply IHm; [assumption|now right].
Qed.

Lemma contains_join d sep l :
  contains d sep = false -> (forall w, In w l -> contains d w = false) ->
  contains d (join sep l) = false.
Proof.
  intros Hsep. induction l as [|w l IH]; intros H; [reflexivity|].
  rewrite join_cons. destruct l as [|x l].
  - apply H. now left.
  - rewrite !contains_app, Hsep, (H w (or_introl eq_refl)), IH; [reflexivity|].
    intros y Hy. apply H. now right.
Qed.

(** C5, the claim as stated fails: for the single root [/a/b] the
    resolver returns [/a/b/] between double quotes; neither that string
    nor its unquoted form is a prefix of the root. *)
Lemma common_path_prefix_counterexample :
  find_common_path ["/a/b"] = Some (dq ++ "/a/b/" ++ dq) /\
  unquoted (dq ++ "/a/b/" ++ dq) = "/a/b/" /\
  startswith "/a/b/" "/a/b" = false /\
  startswith (dq ++ "/a/b/" ++ dq) "/a/b" = false.
Proof.
  repeat split.
Qed.

(** C5 (amended): for every non-empty sequence of root paths the resolver
    returns, between two double quotes that its users remove, the shared
    leading path segments of the roots (taken without double quotes)
    joined with the separator, plus one trailing separator.  The joined
    shared segments, without the trailing separator, are a prefix of every
    root; for a single root the resolver returns that root with a trailing
    separator. *)
Theorem find_common_path_shared_segments (roots : list string) :
  roots <> [] ->
  exists common : list string,
    find_common_path roots = Some (dq ++ join "/" common ++ "/" ++ dq) /\
    (forall cp, find_common_path roots = Some cp ->
                unquoted cp = join "/" common ++ "/") /\
    (forall root, In root roots ->
        Spec.is_prefix common (split slash None (remove_all dq root))) /\
    (forall l,
        (forall root, In root roots ->
            Spec.is_prefix l (split slash None (remove_all dq root))) ->
        Spec.is_prefix l common) /\
    (forall root, In root roots ->
        startswith (join "/" common) (remove_all dq root) = true) /\
    (forall root, roots = [root] ->
        join "/" common ++ "/" = remove_all dq root ++ "/").
Proof.
  intros Hne. unfold find_common_path.
  set (ps := map (fun path => split slash None path)
               (map (fun path => remove_all dq path) roots)).
  assert (Hps : forall root, In root roots ->
                  In (split slash None (remove_all dq root)) ps).
  { intros root Hr. unfold ps. rewrite map_map.
    apply (in_map (fun x => split slash None (remove_all dq x))).
    exact Hr. }
  destruct (common_loop_spec (loop_fuel ps) ps []) as [c [Hloop [Hpre Hmax]]].
  { unfold ps. destruct roots; [congruence|discriminate]. }
  { unfold loop_fuel. lia. }
  exists c. rewrite Hloop. cbn [app].
  assert (Hprefix : forall root, In root roots ->
            startswith (join "/" c) (remove_all dq root) = true).
  { intros root Hr. destruct (Hpre _ (Hps root Hr)) as [rest Hrest].
    rewrite <- (join_split slash (remove_all dq root)), Hrest.
    apply startswith_join. }
  assert (Hclean : contains dquote (join "/" c) = false).
  { apply contains_join; [reflexivity|]. intros w Hw.
    destruct roots as [|root roots']; [congruence|].
    destruct (Hpre _ (Hps root (or_introl eq_refl))) as [rest Hrest].
    apply (contains_split dquote slash None (remove_all dq root)).
    - apply contains_remove_char.
    - rewrite Hrest. apply in_or_app. now left. }
  split; [reflexivity|]. split; [|split; [|split; [|split]]].
  - intros cp Hcp. injection Hcp as <-. unfold unquoted, dq.
    rewrite remove_char_cons, Ascii.eqb_refl, remove_char_app.
    rewrite (remove_char_absent dquote (join "/" c)) by assumption.
    reflexivity.
  - intros root Hr. apply Hpre, Hps, Hr.
  - intros l Hl. apply Hmax. intros p Hp. unfold ps in Hp.
    rewrite map_map in Hp. apply in_map_iff in Hp as [root [<- Hr]].
    apply Hl, Hr.
  - exact Hprefix.
  - intros root ->. f_equal.
    destruct (Hpre _ (Hps root (or_introl eq_refl))) as [rest Hrest].
    destruct (Hmax (split slash None (remove_all dq root))) as [rest' Hrest'].
    { intros p [<-|[]]. exists []. now rewrite app_nil_r. }
    assert (rest = []).
    { apply (f_equal (@List.length string)) in Hrest, Hrest'.
      rewrite length_app in Hrest, Hrest'.
      destruct rest; [reflexivity|simpl in *; lia]. }
    subst rest. rewrite app_nil_r in Hrest.
    rewrite <- Hrest. apply join_split.
Qed.

Lemma find_common_path_shared_segments_witness :
  exists common : list string,
    find_common_path ["/a/b/c"; "/a/b/d"]
    = Some (dq ++ join "/" common ++ "/" ++ dq) /\
    Spec.is_prefix [""; "a"; "b"] common.
Proof.
  destruct (find_common_path_shared_segments ["/a/b/c"; "/a/b/d"])
    as [common [H [_ [_ [Hmax _]]]]]; [discriminate|].
  exists common. split; [exact H|]. apply Hmax.
  intros root [<-|[<-|[]]]; [now exists ["c"]|now exists ["d"]].
Defined.

(** ** Shortening and re-prepending the common path *)

(** The example of the specification: with the roots [/a/b/c] and
    [/a/b/d] the common path is [/a/b/], a result in [/a/b/c/file.txt] is
    displayed as [c/file.txt], and the editor is handed the original
    location again. *)
Lemma round_trip_example :
  exists cp,
    find_common_path ["/a/b/c"; "/a/b/d"] = Some cp /\
    unquoted cp = "/a/b/" /\
    fst (shorten cp ("/a/b/c/file.txt", "hit")) = "c/file.txt" /\
    file_name_and_col cp "c/file.txt" = "/a/b/c/file.txt".
Proof.
  eexists. split; [reflexivity|]. repeat split.
Qed.

(** The scenario of the specification: three lines reported under the
    root [/r], two of them on adjacent lines of one file. *)
Lemma end_to_end_example :
  exists cp,
    find_common_path ["/r"] = Some cp /\
    map (shorten cp)
      (Base._parse_output
         ("/r/a.txt:1:hello" ++ nl ++ "/r/a.txt:2:hello again" ++ nl
            ++ "/r/b.txt:5:other") false)
    = [("a.txt:1", "hello"); ("b.txt:5", "other")].
Proof.
  eexists. split; reflexivity.
Qed.

(** C4: with the roots [/a] and [/b] the common path is [/]; shortening
    the result [/a/x.txt:3] removes every separator, not only the leading
    one, so the displayed locator is [ax.txt:3] instead of the
    root-relative [a/x.txt:3], and re-prepending the common path gives
    [/ax.txt:3], which is not the original location. *)
Theorem shorten_removes_every_occurrence :
  exists cp,
    find_common_path ["/a"; "/b"] = Some cp /\
    unquoted cp = "/" /\
    fst (shorten cp (unquoted cp ++ "a/x.txt:3", "hit")) = "ax.txt:3" /\
    fst (shorten cp (unquoted cp ++ "a/x.txt:3", "hit")) <> "a/x.txt:3" /\
    file_name_and_col cp "ax.txt:3" = "/ax.txt:3" /\
    file_name_and_col cp "ax.txt:3" <> "/a/x.txt:3".
Proof.
  eexists. split; [reflexivity|].
  repeat split; try reflexivity; discriminate.
Qed.

(** ** The definition planner *)

Import FindDefinitionInProjectCommand.

Lemma run_patterns_collect engine_run patterns folders :
  forall (res : string -> list Base.search_result) acc,
    (forall np, In np patterns ->
                engine_run (snd np) folders false = ok (res (snd np))) ->
    run_patterns engine_run patterns folders acc
    = ok (acc ++ concat (map (fun np => Spec.labelled (fst np) (res (snd np)))
                           patterns))%list.
Proof.
  induction patterns as [|[name pattern] patterns IH]; intros res acc H.
  - simpl. now rewrite app_nil_r.
  - cbn [run_patterns].
    pose proof (H (name, pattern) (or_introl eq_refl)) as Hhead.
    cbn [snd] in Hhead. rewrite Hhead.
    cbn [bind ok snd fst]. rewrite (IH res).
    + cbn [map concat fst snd]. now rewrite app_assoc.
    + intros np Hin. apply H. now right.
Qed.

(** C7, the claim as stated fails: the query [ Foo], whose first
    character is a space, is not type-like by its first character, but
    the planner trims it first and produces the type-like categories. *)
Lemma planner_trims_counterexample :
  Spec.type_like_untrimmed " Foo" = false /\
  exists rs,
    run_engine Sample.echo " Foo" ["/r"] = ok rs /\
    map fst rs = map snd (type_patterns "Foo") /\
    hd_error rs = Some ("^module +(Foo)\s", "Module: hit").
Proof.
  split; [reflexivity|]. eexists. repeat split.
Qed.

(** C7 (amended): the planner trims the queried symbol and classifies a
    symbol that is not empty after trimming as type-like exactly when the
    first character of the trimmed symbol is alphabetic and equal to its
    own uppercasing.  A type-like symbol produces the categories of the
    module, type, class and constructor patterns in that order, a
    value-like symbol those of the value type, value definition and record
    getter patterns; when the engine succeeds on every pattern, the merged
    output is the concatenation, in category order, of the engine's
    results for each category in the engine's order, every text prefixed
    with the label of its category and a colon. *)
Theorem run_engine_categories
  (engine_run : string -> list string -> bool
                -> result (list Base.search_result))
  (text_raw : string) (folders : list string)
  (c : ascii) (rest : string) (res : string -> list Base.search_result) :
  strip text_raw = String c rest ->
  let symbol := strip text_raw in
  let categories :=
    if isalpha c && list_nat_eqb (upper c) [code c]
    then type_patterns symbol else value_patterns symbol in
  (isalpha c = true /\ upper c = [code c] ->
   exists class_label,
     categories
     = [("Module", "^module +(" ++ symbol ++ ")\s");
        ("Type def'n",
         "^(data|newtype|type)\s+" ++ symbol
           ++ "(\s+[a-z]+)*\s+(=|where)\s");
        (class_label,
         "^class\s+([a-zA-Z\s.\(\),]+=>\s+)?" ++ symbol
           ++ "(\s+[a-z]+)*\s+where\s");
        ("Constructor",
         "(" ++ ("(data|newtype) .+\s* =\s* " ++ symbol ++ "\s") ++ ")|("
           ++ ("\|\s* " ++ symbol ++ "\s") ++ ")")]) /\
  (~ (isalpha c = true /\ upper c = [code c]) ->
   categories
   = [("Value type", "^ *(" ++ symbol ++ ")\s+::\s+.");
      ("Value def'n", "^ *(" ++ symbol ++ ")\s+[^=$]*\s=\s");
      ("Record getter", " +[{,] +(" ++ symbol ++ ")\s+::\s+")]) /\
  ((forall np, In np categories ->
       engine_run (snd np) folders false = ok (res (snd np))) ->
   run_engine engine_run text_raw folders
   = ok (concat (map (fun np => Spec.labelled (fst np) (res (snd np)))
                   categories))).
Proof.
  intros H symbol categories.
  assert (Hup : list_nat_eqb (upper c) [code c] = true
                <-> upper c = [code c]).
  { unfold list_nat_eqb. destruct (list_eq_dec _ _ _); split; congruence. }
  split; [|split].
  - intros [Ha Hu]. subst categories. apply Hup in Hu.
    rewrite Ha, Hu. eexists. reflexivity.
  - intros Hn. subst categories.
    destruct (isalpha c && list_nat_eqb (upper c) [code c]) eqn:E;
      [|reflexivity].
    apply andb_true_iff in E as [Ha Hu]. apply Hup in Hu. tauto.
  - intros Hres. unfold run_engine. fold symbol. unfold symbol at 1.
    rewrite H. cbn [is_uppercasey bind ok].
    fold categories.
    rewrite (run_patterns_collect engine_run categories folders res [])
      by assumption.
    reflexivity.
Qed.

Lemma run_engine_categories_witness :
  run_engine Sample.echo "foo" ["/r"]
  = ok [("^ *(foo)\s+::\s+.", "Value type: hit");
        ("^ *(foo)\s+[^=$]*\s=\s", "Value def'n: hit");
        (" +[{,] +(foo)\s+::\s+", "Record getter: hit")].
Proof.
  apply (run_engine_categories Sample.echo "foo" ["/r"]
           "f"%char "oo" (fun p => [(p, "hit")]) eq_refl).
  intros np _. reflexivity.
Defined.

(** ** Relative navigation *)

Lemma index_in_range {A} (xs : list A) (i : Z) :
  (0 <= i < Z.of_nat (List.length xs))%Z -> exists x, index xs i = ok x.
Proof.
  intros H. unfold index.
  destruct (i <? 0)%Z eqn:E; [apply Z.ltb_lt in E; lia|]. rewrite E.
  destruct (nth_error xs (Z.to_nat i)) as [x|] eqn:N; [eauto|].
  apply nth_error_None in N. lia.
Qed.

Lemma open_and_highlight_file_shown fao st i :
  (0 <= i < Z.of_nat (List.length (results st)))%Z ->
  exists st',
    open_and_highlight_file fao st i false = ok st' /\
    results st' = results st /\
    last_selected_result_index st' = last_selected_result_index st.
Proof.
  intros H. unfold open_and_highlight_file.
  destruct (index_in_range (results st) i H) as [r ->].
  cbn [bind ok andb]. eexists. split; [reflexivity|]. split; reflexivity.
Qed.

(** C9, the claim as stated fails: when the selected index is that of the
    trailing entry (the quick panel reports its highlighting to
    [on_highlighted], which stores the index), a step forward leaves it
    there, outside the range of the results. *)
Lemma relative_step_counterexample :
  let before := set_index Sample.on_trailing_entry 0 in
  on_highlighted Sample.none_open before 1
  = (Sample.on_trailing_entry, None) /\
  goto_relative_result Sample.none_open Sample.on_trailing_entry 1
  = ok Sample.on_trailing_entry /\
  ~ Spec.in_result_range Sample.on_trailing_entry
      (last_selected_result_index Sample.on_trailing_entry).
Proof.
  cbv zeta. split; [reflexivity|]. split; [reflexivity|].
  unfold Spec.in_result_range. simpl. lia.
Qed.

(** C9 (amended): a relative step taken while a last search string is
    set moves the selection to its target when the target lies within the
    result range excluding the trailing entry, that is in [0, number of
    results - 2], and leaves the session unchanged otherwise; so a
    selected index that was within that range stays within it, and a step
    never moves the selection onto the trailing entry. *)
Theorem goto_relative_result_steps
  (file_already_open : string -> bool) (st : state) (offset : Z) :
  let target := (last_selected_result_index st + offset)%Z in
  let last_entry := (Z.of_nat (List.length (results st)) - 1)%Z in
  exists st',
    goto_relative_result file_already_open st offset = ok st' /\
    results st' = results st /\
    (last_search_string st <> "" -> Spec.in_result_range st target ->
     last_selected_result_index st' = target) /\
    (last_search_string st = "" \/ ~ Spec.in_result_range st target ->
     st' = st) /\
    (Spec.in_result_range st (last_selected_result_index st) ->
     Spec.in_result_range st' (last_selected_result_index st')) /\
    (last_selected_result_index st <> last_entry ->
     last_selected_result_index st' <> last_entry).
Proof.
  intros target last_entry. unfold goto_relative_result, Spec.in_result_range.
  fold target.
  destruct (last_search_string st) as [|c s] eqn:Hs; cbn [is_empty negb].
  { exists st. intuition congruence. }
  destruct ((0 <=? target) && (target <? _))%Z eqn:Hr.
  - apply andb_true_iff in Hr as [H0 H1].
    apply Z.leb_le in H0. apply Z.ltb_lt in H1.
    unfold goto_result. cbn [results set_index].
    assert (E1 : (target =? -1)%Z = false) by (apply Z.eqb_neq; lia).
    assert (E2 : (target =? Z.of_nat (List.length (results st)) - 1)%Z
                 = false) by (apply Z.eqb_neq; lia).
    rewrite E1, E2.
    destruct (open_and_highlight_file_shown file_already_open
                (set_index st target) target) as [st' [Hst' [Hres Hidx]]].
    { cbn [results set_index]. lia. }
    exists st'. cbn [results set_index last_selected_result_index] in *.
    rewrite Hres, Hidx. subst last_entry.
    split; [exact Hst'|]. intuition (try discriminate; lia).
  - exists st. subst last_entry.
    assert (~ (0 <= target <= Z.of_nat (List.length (results st)) - 2)%Z).
    { apply andb_false_iff in Hr as [H|H];
        [apply Z.leb_gt in H|apply Z.ltb_ge in H]; lia. }
    intuition (try discriminate; lia).
Qed.

Lemma goto_relative_result_steps_witness :
  exists st',
    goto_relative_result Sample.none_open
      (set_index Sample.on_trailing_entry (-1)) 1 = ok st' /\
    last_selected_result_index st' = 0%Z.
Proof.
  destruct (goto_relative_result_steps Sample.none_open
              (set_index Sample.on_trailing_entry (-1)) 1)
    as [st' [Hrun [_ [Hmove _]]]].
  exists st'. split; [exact Hrun|]. apply Hmove.
  - discriminate.
  - unfold Spec.in_result_range. simpl. lia.
Defined.

(** ** The consolidated listing *)

Import SearchInProjectResultsCommand.

Lemma take_cons n c s : take (S n) (String c s) = String c (take n s).
Proof. reflexivity. Qed.

Lemma split_first_colon locator :
  contains colon locator = true ->
  split colon (Some 1) locator
  = [Spec.filename_of locator; Spec.location_of locator].
Proof.
  unfold Spec.filename_of, Spec.location_of.
  induction locator as [|c s IH]; intros H; [discriminate|].
  cbn [split find]. destruct (Ascii.eqb c colon) eqn:E.
  - rewrite split_zero. reflexivity.
  - simpl in H. rewrite E in H. rewrite (IH H), take_cons. reflexivity.
Qed.

Lemma group_results_no_colon results :
  forall d,
    (exists r, In r results /\ contains colon (fst r) = false) ->
    group_results results d = raise ValueError.
Proof.
  induction results as [|r results IH]; intros d [x [Hin Hx]];
    [destruct Hin|].
  cbn [group_results].
  destruct (contains colon (fst r)) eqn:E.
  - rewrite (split_first_colon _ E). apply IH.
    destruct Hin as [->|Hin]; [congruence|eauto].
  - rewrite (split_without _ _ _ E). reflexivity.
Qed.

Lemma group_results_colon results :
  forall d,
    (forall r, In r results -> contains colon (fst r) = true) ->
    exists g, group_results results d = ok g.
Proof.
  induction results as [|r results IH]; intros d H; [eexists; reflexivity|].
  cbn [group_results].
  rewrite (split_first_colon _ (H r (or_introl eq_refl))).
  apply IH. intros x Hx. apply H. now right.
Qed.

(** C10: the formatter splits each locator at its first colon into file
    name and location, and it produces a document only if every locator
    contains a colon: as soon as one result has a locator without colon,
    formatting raises [ValueError], which [run] does not catch. *)
Theorem format_results_requires_colon
  (common_path : string) (results : list Base.search_result)
  (query : string) :
  (forall filename location,
      contains colon filename = false ->
      split colon (Some 1) (filename ++ ":" ++ location)
      = [filename; location]) /\
  ((exists r, In r results /\ contains colon (fst r) = false) <->
   format_results common_path results query = raise ValueError) /\
  ((exists r, In r results /\ contains colon (fst r) = false) ->
   run common_path results query = raise ValueError).
Proof.
  assert (Hraise : (exists r, In r results /\ contains colon (fst r) = false)
                   -> format_results common_path results query
                      = raise ValueError).
  { intros H. unfold format_results.
    rewrite (group_results_no_colon results [] H). reflexivity. }
  split; [|split].
  - intros filename location H.
    change (filename ++ ":" ++ location)
      with (filename ++ String colon location).
    rewrite split_at_first, split_zero by assumption. reflexivity.
  - split; [exact Hraise|]. intros Hfail.
    destruct (existsb (fun r => negb (contains colon (fst r))) results) eqn:E.
    + apply existsb_exists in E as [r [Hin Hr]]. exists r.
      split; [assumption|]. now apply negb_true_iff.
    + exfalso. destruct (group_results_colon results []) as [g Hg].
      * intros r Hr. destruct (contains colon (fst r)) eqn:Hc; [reflexivity|].
        assert (existsb (fun r => negb (contains colon (fst r))) results
                = true).
        { apply existsb_exists. exists r. now rewrite Hc. }
        congruence.
      * unfold format_results in Hfail. rewrite Hg in Hfail. discriminate.
  - intros H. unfold run. rewrite (Hraise H). reflexivity.
Qed.

Lemma format_results_requires_colon_witness :
  run "/r/" [("a.txt:1", "needle"); ("README", "needle")] "needle"
  = raise ValueError.
Proof.
  apply (proj2 (proj2 (format_results_requires_colon "/r/"
                  [("a.txt:1", "needle"); ("README", "needle")] "needle"))).
  exists ("README", "needle"). split; [right; left|]; reflexivity.
Defined.

Lemma first_seen_snoc l x :
  Spec.first_seen (l ++ [x])
  = if existsb (String.eqb x) l then Spec.first_seen l
    else (Spec.first_seen l ++ [x])%list.
Proof.
  induction l as [|a l IH]; [reflexivity|].
  cbn [app Spec.first_seen existsb]. rewrite IH.
  destruct (String.eqb_spec x a) as [->|Hxa]; cbn [orb].
  - destruct (existsb (String.eqb a) l); [reflexivity|].
    rewrite filter_app. cbn [filter]. rewrite String.eqb_refl. cbn [negb].
    now rewrite app_nil_r.
  - destruct (existsb (String.eqb x) l); [reflexivity|].
    rewrite filter_app. cbn [filter].
    destruct (String.eqb_spec x a); [contradiction|reflexivity].
Qed.

Lemma first_seen_In x l : In x (Spec.first_seen l) <-> In x l.
Proof.
  induction l as [|a l IH]; [reflexivity|]. cbn [Spec.first_seen].
  split.
  - intros [->|H]; [now left|]. apply filter_In in H as [H _].
    right. now apply IH.
  - intros [->|H]; [now left|].
    destruct (String.eqb_spec x a) as [->|Hxa]; [now left|]. right.
    apply filter_In. split; [now apply IH|].
    apply negb_true_iff. now apply String.eqb_neq.
Qed.

Lemma first_seen_NoDup l : NoDup (Spec.first_seen l).
Proof.
  induction l as [|a l IH]; [constructor|]. cbn [Spec.first_seen].
  constructor.
  - intros H. apply filter_In in H as [_ H].
    now rewrite String.eqb_refl in H.
  - now apply NoDup_filter.
Qed.

Lemma existsb_eqb_In x l : existsb (String.eqb x) l = true <-> In x l.
Proof.
  rewrite existsb_exists. split.
  - intros [y [Hy E]]. apply String.eqb_eq in E. now subst.
  - intros H. exists x. split; [assumption|apply String.eqb_refl].
Qed.

Lemma group_results_snoc rs r :
  forall d,
    group_results (rs ++ [r]) d
    = (g <- group_results rs d ;; group_results [r] g).
Proof.
  induction rs as [|a rs IH]; intros d; [reflexivity|].
  cbn [app group_results].
  destruct (split colon (Some 1) (fst a)) as [|f [|l [|x xs]]];
    try reflexivity.
  apply IH.
Qed.

Lemma results_of_snoc f rs r :
  Spec.results_of f (rs ++ [r])
  = (Spec.results_of f rs
       ++ if String.eqb (Spec.filename_of (fst r)) f then [r] else [])%list.
Proof.
  unfold Spec.results_of. rewrite filter_app. cbn [filter].
  destruct (String.eqb _ f); reflexivity.
Qed.

Lemma group_unchanged rs r k :
  Spec.filename_of (fst r) <> k -> Spec.group_of (rs ++ [r]) k = Spec.group_of rs k.
Proof.
  intros H. unfold Spec.group_of. rewrite results_of_snoc.
  apply String.eqb_neq in H. rewrite H, app_nil_r. reflexivity.
Qed.

Lemma group_extended rs r :
  Spec.group_of (rs ++ [r]) (Spec.filename_of (fst r))
  = (Spec.filename_of (fst r),
     (snd (Spec.group_of rs (Spec.filename_of (fst r)))
        ++ [(Spec.location_of (fst r), snd r)])%list).
Proof.
  unfold Spec.group_of. rewrite results_of_snoc, String.eqb_refl, map_app.
  reflexivity.
Qed.

Lemma dict_append_groups rs r files :
  NoDup files ->
  dict_append (Spec.filename_of (fst r)) (Spec.location_of (fst r), snd r)
    (map (Spec.group_of rs) files)
  = (map (Spec.group_of (rs ++ [r])) files
       ++ if existsb (String.eqb (Spec.filename_of (fst r))) files then []
          else [(Spec.filename_of (fst r),
                 [(Spec.location_of (fst r), snd r)])])%list.
Proof.
  set (f := Spec.filename_of (fst r)).
  induction files as [|k files IH]; intros Hnd; [reflexivity|].
  inversion Hnd as [|? ? Hk Hnd']; subst.
  cbn [map dict_append existsb]. unfold Spec.group_of at 1. cbv beta iota.
  fold (Spec.group_of rs k).
  destruct (String.eqb_spec k f) as [->|Hkf].
  - rewrite String.eqb_refl. cbn [orb]. rewrite app_nil_r.
    unfold f at 3. rewrite group_extended. fold f. f_equal.
    apply map_ext_in. intros k' Hk'. symmetry. apply group_unchanged.
    fold f. intros E. apply Hk. now rewrite <- E in Hk'.
  - assert (E : String.eqb f k = false) by (apply String.eqb_neq; congruence).
    rewrite E. cbn [orb]. rewrite (IH Hnd'), group_unchanged; [reflexivity|].
    fold f. congruence.
Qed.

Lemma results_of_absent f rs :
  ~ In f (map (fun r => Spec.filename_of (fst r)) rs) ->
  Spec.results_of f rs = [].
Proof.
  intros H. unfold Spec.results_of.
  induction rs as [|r rs IH]; [reflexivity|]. cbn [filter].
  destruct (String.eqb_spec (Spec.filename_of (fst r)) f) as [E|E].
  - exfalso. apply H. left. exact E.
  - apply IH. intros Hin. apply H. now right.
Qed.

Lemma results_of_present f rs :
  In f (map (fun r => Spec.filename_of (fst r)) rs) ->
  Spec.results_of f rs <> [].
Proof.
  intros H. apply in_map_iff in H as [r [E Hr]].
  assert (Hin : In r (Spec.results_of f rs)).
  { apply filter_In. split; [assumption|]. now apply String.eqb_eq. }
  intros Hnil. now rewrite Hnil in Hin.
Qed.

(** The dictionary built by the loop holds one group per file, in
    first-seen order. *)
Lemma group_results_groups rs :
  (forall r, In r rs -> contains colon (fst r) = true) ->
  group_results rs []
  = ok (map (Spec.group_of rs)
          (Spec.first_seen (map (fun r => Spec.filename_of (fst r)) rs))).
Proof.
  induction rs as [|r rs IH] using rev_ind; intros H; [reflexivity|].
  rewrite group_results_snoc, IH.
  2:{ intros x Hx. apply H. apply in_or_app. now left. }
  cbn [bind ok group_results].
  rewrite split_first_colon by (apply H; apply in_or_app; right; now left).
  rewrite dict_append_groups by apply first_seen_NoDup.
  rewrite map_app. cbn [map]. rewrite first_seen_snoc.
  set (f := Spec.filename_of (fst r)).
  set (fs := map (fun r => Spec.filename_of (fst r)) rs).
  destruct (existsb (String.eqb f) fs) eqn:E.
  - assert (E' : existsb (String.eqb f) (Spec.first_seen fs) = true).
    { apply (proj2 (existsb_eqb_In _ _)), (proj2 (first_seen_In _ _)),
        (proj1 (existsb_eqb_In _ _)), E. }
    rewrite E', app_nil_r. reflexivity.
  - assert (E' : existsb (String.eqb f) (Spec.first_seen fs) = false).
    { destruct (existsb (String.eqb f) (Spec.first_seen fs)) eqn:X;
        [|reflexivity].
      apply (proj1 (existsb_eqb_In _ _)) in X.
      apply (proj1 (first_seen_In _ _)) in X.
      apply (proj2 (existsb_eqb_In _ _)) in X. congruence. }
    rewrite E', map_app. cbn [map]. do 3 f_equal.
    subst f. rewrite group_extended. f_equal.
    unfold Spec.group_of. cbn [snd].
    rewrite results_of_absent; [reflexivity|].
    intros Hin. apply (proj2 (existsb_eqb_In _ _)) in Hin.
    fold fs in Hin. congruence.
Qed.

Lemma append_nil_r (s : string) : s ++ "" = s.
Proof. induction s as [|c s IH]; simpl; [reflexivity|]. now rewrite IH. Qed.

Lemma join_lines (l : list string) :
  l <> [] -> join nl l ++ nl = Spec.concat_str (map (fun x => x ++ nl) l).
Proof.
  induction l as [|x l IH]; intros H; [congruence|].
  rewrite join_cons. destruct l as [|y l].
  { cbn [map Spec.concat_str fold_right]. now rewrite append_nil_r. }
  cbn [map Spec.concat_str fold_right] in *.
  rewrite <- IH by discriminate. rewrite !append_assoc. reflexivity.
Qed.

Lemma format_result_block common_path rs f :
  Spec.results_of f rs <> [] ->
  format_result common_path (fst (Spec.group_of rs f))
                (snd (Spec.group_of rs f))
  = Spec.file_block common_path rs f.
Proof.
  intros H. unfold format_result, Spec.file_block, Spec.group_of.
  cbn [fst snd]. rewrite join_lines.
  - rewrite !map_map.
    rewrite (map_ext _ (fun r : string * string =>
               "  " ++ Spec.location_of (fst r) ++ ": " ++ snd r ++ nl));
      [reflexivity|].
    intros r. cbn [fst snd append]. rewrite !append_assoc. reflexivity.
  - destruct (Spec.results_of f rs); [congruence|discriminate].
Qed.

(** C8, the claim as stated fails: the header of the document begins
    with [Search In Project results for], not with [Search results for],
    already for an empty result list. *)
Lemma listing_header_counterexample :
  format_results "" [] "needle"
  = ok ("Search In Project results for " ++ dq ++ "needle" ++ dq
          ++ " (0 lines in 0 files):" ++ nl ++ nl) /\
  format_results "" [] "needle" <> ok (Spec.claimed_header "needle" 0 0).
Proof.
  split; [reflexivity|discriminate].
Qed.

(** C8 (amended): for every query, common path and result list whose
    locators all contain a colon, the listing document is the header
    [Search In Project results for "query" (N lines in M files):] followed
    by an empty line, N the number of results and M the number of distinct
    files, and then one block per file in first-seen order, the blocks
    separated by a line break; a block is the common path, the file name
    and a colon on one line, followed by one line per result of that file
    in result order, made of two spaces, the location, a colon, a space
    and the text. *)
Theorem format_results_listing
  (common_path : string) (results : list Base.search_result)
  (query : string) :
  (forall r, In r results -> contains colon (fst r) = true) ->
  format_results common_path results query
  = ok (Spec.listing common_path results query).
Proof.
  intros H. unfold format_results. rewrite (group_results_groups results H).
  cbn [bind ok]. unfold Spec.listing, results_header.
  rewrite length_map, map_map.
  rewrite (map_ext_in _ (Spec.file_block common_path results)).
  - rewrite !append_assoc. reflexivity.
  - intros f Hf. apply format_result_block.
    apply results_of_present. now apply first_seen_In.
Qed.

Lemma format_results_listing_witness :
  format_results "/r/"
    [("a.txt:1", "hello"); ("b.txt:5", "other"); ("a.txt:7:3", "hello")]
    "hello"
  = ok ("Search In Project results for " ++ dq ++ "hello" ++ dq
          ++ " (3 lines in 2 files):" ++ nl ++ nl
          ++ "/r/a.txt:" ++ nl ++ "  1: hello" ++ nl ++ "  7:3: hello" ++ nl
          ++ nl
          ++ "/r/b.txt:" ++ nl ++ "  5: other" ++ nl).
Proof.
  apply (format_results_listing "/r/"
           [("a.txt:1", "hello"); ("b.txt:5", "other"); ("a.txt:7:3", "hello")]
           "hello").
  intros r [<-|[<-|[<-|[]]]]; reflexivity.
Defined.

(** * Further properties of the code *)

(** ** The output parser, continued *)

(** X1: a line [path:line:text] that is not recognised as carrying a
    column (path and line without colon, no line break) is parsed into one
    result with the locator [path:line] and the trimmed text; the colons
    of the text stay in the text. *)
Theorem parse_line_without_column path line text keep :
  contains colon path = false -> contains colon line = false ->
  contains newline path = false -> contains newline line = false ->
  contains newline text = false ->
  Base.HAS_COLUMN_INFO (path ++ ":" ++ line ++ ":" ++ text) = false ->
  Base._parse_output (path ++ ":" ++ line ++ ":" ++ text) keep
  = [(path ++ ":" ++ line, strip text)].
Proof.
  intros Hp Hl Hpn Hln Htn Hcol. unfold Base._parse_output.
  rewrite split_without.
  2:{ rewrite !contains_app. simpl. now rewrite Hpn, Hln, Htn. }
  cbn [map]. unfold Base.line_split. rewrite Hcol.
  change (path ++ ":" ++ line ++ ":" ++ text)
    with (path ++ String colon (line ++ String colon text)).
  rewrite (split_at_first colon (Some 2) path) by assumption.
  rewrite (split_at_first colon (Some 1) line) by assumption.
  rewrite split_zero. destruct keep; reflexivity.
Qed.

Lemma parse_line_without_column_witness :
  Base._parse_output "src/a.py:12:x = d[1:2] " true
  = [("src/a.py:12", "x = d[1:2]")].
Proof.
  apply (parse_line_without_column "src/a.py" "12" "x = d[1:2] " true);
    reflexivity.
Defined.

Lemma subseq_refl {A} (l : list A) : Spec.subseq l l.
Proof. induction l; constructor; assumption. Qed.

Lemma subseq_map {A B} (f : A -> B) a b :
  Spec.subseq a b -> Spec.subseq (map f a) (map f b).
Proof. induction 1; simpl; constructor; assumption. Qed.

Lemma subseq_length {A} (a b : list A) :
  Spec.subseq a b -> List.length a <= List.length b.
Proof. induction 1; simpl; lia. Qed.

Lemma subseq_trans {A} (a b c : list A) :
  Spec.subseq a b -> Spec.subseq b c -> Spec.subseq a c.
Proof.
  intros Hab Hbc. revert a Hab.
  induction Hbc as [|x b c Hbc IH|x b c Hbc IH]; intros a Hab.
  - assumption.
  - apply Spec.subseq_skip. auto.
  - inversion Hab; subst.
    + apply Spec.subseq_skip. auto.
    + apply Spec.subseq_keep. auto.
Qed.

Lemma filter_adjacent_subseq last rest :
  Spec.subseq (Base.filter_adjacent last rest) rest.
Proof.
  revert last; induction rest as [|this rest IH]; intros last; simpl.
  - constructor.
  - destruct (Base.adjacent last this); constructor; apply IH.
Qed.

Lemma filter_subseq {A} (p : A -> bool) l : Spec.subseq (filter p l) l.
Proof.
  induction l as [|x l IH]; simpl; [constructor|].
  destruct (p x); constructor; assumption.
Qed.

Lemma filter_lines_subseq line_parts :
  Spec.subseq (Base._filter_lines_without_matches line_parts false)
              (Base._filter_lines_without_matches line_parts true).
Proof.
  unfold Base._filter_lines_without_matches. cbn [negb].
  destruct (filter _ line_parts) as [|r0 rest];
    [apply Spec.subseq_nil|apply Spec.subseq_keep].
  apply filter_adjacent_subseq.
Qed.

(** X2: merging adjacent lines only leaves results out: the results
    parsed with [keep_adjacents] false are the results parsed with
    [keep_adjacents] true with some of them removed, in the same order;
    the first result is never removed, so an output with results keeps at
    least one. *)
Theorem parse_output_merge_only_removes (output : string) :
  Spec.subseq (Base._parse_output output false)
              (Base._parse_output output true) /\
  hd_error (Base._parse_output output false)
  = hd_error (Base._parse_output output true).
Proof.
  unfold Base._parse_output. split.
  - apply subseq_map, filter_lines_subseq.
  - unfold Base._filter_lines_without_matches. cbn [negb].
    destruct (filter _ _) as [|r0 rest]; reflexivity.
Qed.

Lemma rstrip_with_idem p s :
  rstrip_with p (rstrip_with p s) = rstrip_with p s.
Proof.
  induction s as [|c s IH]; [reflexivity|]. cbn [rstrip_with].
  destruct (is_empty (rstrip_with p s) && p c) eqn:E; [reflexivity|].
  cbn [rstrip_with]. rewrite IH, E. reflexivity.
Qed.

Lemma lstrip_with_head p s :
  lstrip_with p s = "" \/
  exists c t, lstrip_with p s = String c t /\ p c = false.
Proof.
  induction s as [|c s IH]; [now left|]. cbn [lstrip_with].
  destruct (p c) eqn:E; [exact IH|]. right. eauto.
Qed.

Lemma rstrip_with_keep p c t :
  p c = false -> rstrip_with p (String c t) = String c (rstrip_with p t).
Proof. intros H. cbn [rstrip_with]. now rewrite H, andb_false_r. Qed.

(** Trimming a trimmed string changes nothing. *)
Lemma strip_idem s : strip (strip s) = strip s.
Proof.
  unfold strip.
  destruct (lstrip_with_head isspace s) as [->|[c [t [-> Hc]]]];
    [reflexivity|].
  rewrite (rstrip_with_keep isspace c t Hc).
  cbn [lstrip_with]. rewrite Hc.
  rewrite (rstrip_with_keep isspace c _ Hc), rstrip_with_idem.
  reflexivity.
Qed.

Lemma split_parts_without sep s w :
  In w (split sep None s) -> contains sep w = false.
Proof.
  revert w; induction s as [|c s IH]; intros w H.
  - destruct H as [<-|[]]. reflexivity.
  - cbn [split] in H. destruct (Ascii.eqb c sep) eqn:E.
    + destruct H as [<-|H]; [reflexivity|auto].
    + destruct (split sep None s) as [|x xs].
      * destruct H as [<-|[]]. simpl. now rewrite E.
      * destruct H as [<-|H].
        -- simpl. rewrite E. apply IH. now left.
        -- apply IH. now right.
Qed.

Lemma contains_lstrip d p s :
  contains d s = false -> contains d (lstrip_with p s) = false.
Proof.
  induction s as [|c s IH]; intros H; [reflexivity|]. cbn [lstrip_with].
  destruct (p c); [|assumption].
  simpl in H. apply orb_false_iff in H as [_ H]. auto.
Qed.

Lemma contains_rstrip d p s :
  contains d s = false -> contains d (rstrip_with p s) = false.
Proof.
  induction s as [|c s IH]; intros H; [reflexivity|]. cbn [rstrip_with].
  simpl in H. apply orb_false_iff in H as [Hc H].
  destruct (is_empty _ && p c); [reflexivity|].
  simpl. now rewrite Hc, IH.
Qed.

Lemma contains_strip d s :
  contains d s = false -> contains d (strip s) = false.
Proof. intros H. now apply contains_rstrip, contains_lstrip. Qed.

Lemma in_removelast {A} (x : A) l : In x (removelast l) -> In x l.
Proof.
  induction l as [|a l IH]; [intros []|]. cbn [removelast].
  destruct l as [|b l]; [intros []|].
  intros [->|H]; [now left|right; auto].
Qed.

Lemma last_in {A} (l : list A) d : l <> [] -> In (last l d) l.
Proof.
  induction l as [|a l IH]; [congruence|]. intros _.
  destruct l as [|b l]; [now left|]. right. apply IH. discriminate.
Qed.

Lemma line_split_parts line w :
  contains newline line = false -> In w (Base.line_split line) ->
  contains newline w = false.
Proof.
  intros H. unfold Base.line_split.
  destruct (Base.HAS_COLUMN_INFO line); apply contains_split; assumption.
Qed.

Lemma locator_has_colon (fields : list string) :
  2 < List.length fields ->
  contains colon (join ":" (removelast fields)) = true.
Proof.
  destruct fields as [|a [|b [|c l]]]; simpl List.length; try lia.
  intros _. cbn [removelast]. rewrite join_cons.
  destruct (removelast (c :: l));
    rewrite !contains_app; simpl; now rewrite orb_true_r.
Qed.

(** X3: every result of the parser comes from one line of the output:
    its locator contains a colon, its text is trimmed, neither contains a
    line break, and there are at most as many results as lines. *)
Theorem parse_output_results (output : string) (keep_adjacents : bool) :
  (forall r, In r (Base._parse_output output keep_adjacents) ->
     contains colon (fst r) = true /\
     strip (snd r) = snd r /\
     contains newline (fst r) = false /\
     contains newline (snd r) = false) /\
  List.length (Base._parse_output output keep_adjacents)
  <= List.length (split newline None output).
Proof.
  unfold Base._parse_output. split.
  - intros r Hr. apply in_map_iff in Hr as [fields [<- Hf]].
    apply filter_lines_incl in Hf as [Hin Hlen]. cbn [fst snd].
    apply in_map_iff in Hin as [line [<- Hline]].
    pose proof (split_parts_without newline output line Hline) as Hnl.
    split; [now apply locator_has_colon|].
    split; [apply strip_idem|]. split.
    + apply contains_join; [reflexivity|]. intros w Hw.
      apply (line_split_parts line); [assumption|].
      now apply in_removelast.
    + apply contains_strip, (line_split_parts line); [assumption|].
      apply last_in. intros E. rewrite E in Hlen. simpl in Hlen. lia.
  - rewrite length_map.
    rewrite <- (length_map Base.line_split (split newline None output)).
    apply subseq_length.
    apply (subseq_trans _ (Base._filter_lines_without_matches
                             (map Base.line_split (split newline None output))
                             true)).
    + destruct keep_adjacents;
        [apply subseq_refl|apply filter_lines_subseq].
    + apply filter_subseq.
Qed.

Lemma parse_output_results_witness :
  contains colon "a.py:3" = true /\
  strip "x = 1" = "x = 1" /\
  contains newline "a.py:3" = false /\
  contains newline "x = 1" = false.
Proof.
  apply (proj1 (parse_output_results
                  ("banner" ++ nl ++ "a.py:3: x = 1 " ++ nl) true)
           ("a.py:3", "x = 1")).
  left. reflexivity.
Defined.

(** ** The engine adapter, continued *)



Lemma append_cancel_l (a x y : string) : a ++ x = a ++ y -> x = y.
Proof.
  induction a as [|c a IH]; simpl; intros H; [assumption|].
  injection H as H. auto.
Qed.

Lemma length_append (a b : string) :
  String.length (a ++ b) = String.length a + String.length b.
Proof. induction a as [|c a IH]; simpl; [reflexivity|]. now rewrite IH. Qed.

Lemma drop_append (a b : string) : drop (String.length a) (a ++ b) = b.
Proof. induction a as [|c a IH]; simpl; [now destruct b|assumption]. Qed.

(** Two ways of cutting one string: the shorter tail is the end of the
    longer one. *)
Lemma common_tail (a b s t : string) :
  a ++ s = b ++ t -> String.length s <= String.length t ->
  exists u, t = u ++ s /\ a = b ++ u.
Proof.
  revert b; induction a as [|x a IH]; intros b H Hlen.
  - simpl in H. subst s. rewrite length_append in Hlen.
    destruct b as [|y b]; [exists ""; auto|].
    simpl in Hlen. lia.
  - destruct b as [|y b].
    + simpl in H. exists (String x a). split; [now symmetry|reflexivity].
    + simpl in H. injection H as -> H.
      destruct (IH b H Hlen) as [u [Ht Ha]]. exists u.
      split; [assumption|]. simpl. now rewrite Ha.
Qed.

Lemma tail_check (u s t : string) :
  t = u ++ s ->
  String.eqb (drop (String.length t - String.length s) t) s = true.
Proof.
  intros ->. rewrite length_append, Nat.add_sub, drop_append.
  apply String.eqb_refl.
Qed.

(** X5: the settings keys of the engines never collide: for the three
    settings an engine reads, two keys are equal only for the same engine
    class and the same setting. *)
Theorem full_settings_name_injective (class1 class2 name1 name2 : string) :
  In name1 Base.SETTINGS -> In name2 Base.SETTINGS ->
  Base._full_settings_name class1 name1
  = Base._full_settings_name class2 name2 ->
  class1 = class2 /\ name1 = name2.
Proof.
  intros H1 H2 E. unfold Base._full_settings_name in E.
  apply append_cancel_l in E.
  assert (Hsame : name1 = name2 -> class1 = class2 /\ name1 = name2).
  { intros ->. split; [|reflexivity].
    destruct (common_tail _ _ _ _ E (Nat.le_refl _)) as [u [Hu Hc]].
    assert (u = "").
    { apply (f_equal String.length) in Hu. rewrite length_append in Hu.
      destruct u; [reflexivity|]. simpl in Hu.
      rewrite !length_append in Hu. simpl in Hu. lia. }
    subst u. rewrite Hc. clear. induction class2; simpl; congruence. }
  assert (Hdiff : forall a b s t,
             a ++ s = b ++ t ->
             String.eqb (drop (String.length t - String.length s) t) s
             = false ->
             String.eqb (drop (String.length s - String.length t) s) t
             = false -> False).
  { intros a b s t Hst F1 F2.
    destruct (Nat.le_ge_cases (String.length s) (String.length t)) as [L|L].
    - destruct (common_tail _ _ _ _ Hst L) as [u [Hu _]].
      apply tail_check in Hu. congruence.
    - symmetry in Hst. destruct (common_tail _ _ _ _ Hst L) as [u [Hu _]].
      apply tail_check in Hu. congruence. }
  simpl in H1, H2.
  destruct H1 as [<-|[<-|[<-|[]]]]; destruct H2 as [<-|[<-|[<-|[]]]];
    try (apply Hsame; reflexivity);
    exfalso; apply (Hdiff _ _ _ _ E); reflexivity.
Qed.

Lemma full_settings_name_injective_witness :
  "Grep" = "Grep" /\ "common_options" = "common_options".
Proof.
  apply (full_settings_name_injective "Grep" "Grep"
           "common_options" "common_options").
  - right. right. left. reflexivity.
  - right. right. left. reflexivity.
  - reflexivity.
Defined.

(** ** The common path, continued *)

Lemma common_path_segments (roots : list string) :
  roots <> [] ->
  exists common : list string,
    SearchInProjectCommand.find_common_path roots
    = Some (dq ++ join "/" common ++ "/" ++ dq) /\
    contains dquote (join "/" common) = false /\
    (forall root, In root roots ->
        Spec.is_prefix common (split slash None (remove_all dq root))) /\
    (forall l,
        (forall root, In root roots ->
            Spec.is_prefix l (split slash None (remove_all dq root))) ->
        Spec.is_prefix l common).
Proof.
  intros Hne. unfold SearchInProjectCommand.find_common_path.
  set (ps := map (fun path => split slash None path)
               (map (fun path => remove_all dq path) roots)).
  assert (Hps : forall root, In root roots ->
                  In (split slash None (remove_all dq root)) ps).
  { intros root Hr. unfold ps. rewrite map_map.
    apply (in_map (fun x => split slash None (remove_all dq x))).
    exact Hr. }
  destruct (common_loop_spec (SearchInProjectCommand.loop_fuel ps) ps [])
    as [c [Hloop [Hpre Hmax]]].
  { unfold ps. destruct roots; [congruence|discriminate]. }
  { unfold SearchInProjectCommand.loop_fuel. lia. }
  exists c. rewrite Hloop. cbn [app].
  split; [reflexivity|]. split; [|split].
  - apply contains_join; [reflexivity|]. intros w Hw.
    destruct roots as [|root roots']; [congruence|].
    destruct (Hpre _ (Hps root (or_introl eq_refl))) as [rest Hrest].
    apply (contains_split dquote slash None (remove_all dq root)).
    + apply contains_remove_char.
    + rewrite Hrest. apply in_or_app. now left.
  - intros root Hr. apply Hpre, Hps, Hr.
  - intros l Hl. apply Hmax. intros p Hp. unfold ps in Hp.
    rewrite map_map in Hp. apply in_map_iff in Hp as [root [<- Hr]].
    apply Hl, Hr.
Qed.

Lemma unquoted_wrapped body :
  contains dquote body = false ->
  SearchInProjectCommand.unquoted (dq ++ body ++ "/" ++ dq) = body ++ "/".
Proof.
  intros H. unfold SearchInProjectCommand.unquoted, dq.
  change (String dquote "" ++ body ++ "/" ++ String dquote "")
    with (String dquote (body ++ String slash (String dquote ""))).
  rewrite remove_char_cons, Ascii.eqb_refl, remove_char_app.
  rewrite (remove_char_absent dquote body H). reflexivity.
Qed.

Lemma common_path_shape (roots : list string) :
  exists cp body,
    SearchInProjectCommand.find_common_path roots = Some cp /\
    cp = dq ++ body ++ "/" ++ dq /\
    contains dquote body = false /\
    SearchInProjectCommand.unquoted cp = body ++ "/" /\
    SearchInProjectCommand.unquoted cp <> "".
Proof.
  assert (Hne : forall body : string, body ++ "/" <> "")
    by (intros [|c b]; discriminate).
  destruct roots as [|root roots].
  - exists (dq ++ "/" ++ dq), "". repeat split. discriminate.
  - destruct (common_path_segments (root :: roots)) as [c [H [Hq _]]];
      [discriminate|].
    exists (dq ++ join "/" c ++ "/" ++ dq), (join "/" c).
    rewrite (unquoted_wrapped _ Hq). auto.
Qed.

(** X6: the resolver returns a value for every list of roots, the empty
    one included (its loop always ends): a string between two double
    quotes that, once the quotes are removed, ends with the separator and
    so is never empty. *)
Theorem find_common_path_shape (roots : list string) :
  exists cp body,
    SearchInProjectCommand.find_common_path roots = Some cp /\
    cp = dq ++ body ++ "/" ++ dq /\
    contains dquote body = false /\
    SearchInProjectCommand.unquoted cp = body ++ "/" /\
    SearchInProjectCommand.unquoted cp <> "".
Proof. exact (common_path_shape roots). Qed.

Lemma prefix_antisym (a b : list string) :
  Spec.is_prefix a b -> Spec.is_prefix b a -> a = b.
Proof.
  intros [r1 H1] [r2 H2]. rewrite H1 in H2.
  apply (f_equal (@List.length string)) in H2.
  rewrite !length_app in H2.
  destruct r1; [now rewrite app_nil_r in H1|simpl in H2; lia].
Qed.

Lemma remove_char_idem d s :
  remove_all (String d "") (remove_all (String d "") s)
  = remove_all (String d "") s.
Proof. apply remove_char_absent, contains_remove_char. Qed.

(** X7: the common path depends only on which roots are given, not on
    their order or on repetitions, and not on double quotes in the
    roots. *)
Theorem find_common_path_set (roots1 roots2 : list string) :
  (roots1 <> [] ->
   (forall root, In root roots1 <-> In root roots2) ->
   SearchInProjectCommand.find_common_path roots1
   = SearchInProjectCommand.find_common_path roots2) /\
  SearchInProjectCommand.find_common_path
    (map (fun root => remove_all dq root) roots1)
  = SearchInProjectCommand.find_common_path roots1.
Proof.
  split.
  - intros Hne Hsame.
    assert (Hne2 : roots2 <> []).
    { destruct roots1 as [|r l]; [congruence|].
      intros ->. apply (Hsame r). now left. }
    destruct (common_path_segments roots1 Hne) as [c1 [E1 [_ [P1 M1]]]].
    destruct (common_path_segments roots2 Hne2) as [c2 [E2 [_ [P2 M2]]]].
    rewrite E1, E2. replace c2 with c1; [reflexivity|].
    apply prefix_antisym.
    + apply M2. intros root Hr. apply P1, Hsame, Hr.
    + apply M1. intros root Hr. apply P2, Hsame, Hr.
  - unfold SearchInProjectCommand.find_common_path.
    assert (E : map (fun path => remove_all dq path)
                  (map (fun root => remove_all dq root) roots1)
                = map (fun path => remove_all dq path) roots1).
    { rewrite map_map. apply map_ext. intros x. apply remove_char_idem. }
    rewrite E. reflexivity.
Qed.

Lemma find_common_path_set_witness :
  SearchInProjectCommand.find_common_path ["/a/b/c"; "/a/b/d"; "/a/b/c"]
  = SearchInProjectCommand.find_common_path ["/a/b/d"; "/a/b/c"].
Proof.
  apply (proj1 (find_common_path_set ["/a/b/c"; "/a/b/d"; "/a/b/c"]
                  ["/a/b/d"; "/a/b/c"])); [discriminate|].
  intros root. simpl. tauto.
Defined.

Lemma join_app sep (a b : list string) :
  a <> [] -> b <> [] ->
  join sep (a ++ b) = join sep a ++ sep ++ join sep b.
Proof.
  intros Ha Hb. induction a as [|x a IH]; [congruence|].
  destruct a as [|y a].
  - simpl. destruct b; [congruence|reflexivity].
  - change ((x :: y :: a) ++ b)%list with (x :: ((y :: a) ++ b))%list.
    rewrite join_cons. cbn [app]. rewrite <- app_comm_cons in IH.
    rewrite IH by discriminate. rewrite (join_cons sep x (y :: a)).
    rewrite !append_assoc. reflexivity.
Qed.

(** X8: for absolute roots the unquoted common path is a directory prefix
    of every root: each root followed by a separator, and with it every
    path below that root, begins with the common path. *)
Theorem common_path_is_directory_prefix (roots : list string) (cp : string) :
  roots <> [] ->
  (forall root, In root roots ->
     startswith "/" (remove_all dq root) = true) ->
  SearchInProjectCommand.find_common_path roots = Some cp ->
  forall root below,
    In root roots ->
    startswith (SearchInProjectCommand.unquoted cp)
               (remove_all dq root ++ "/" ++ below) = true.
Proof.
  intros Hne Habs Hcp root below Hr.
  destruct (common_path_segments roots Hne) as [c [E [Hq [P M]]]].
  assert (U : SearchInProjectCommand.unquoted cp = join "/" c ++ "/").
  { rewrite E in Hcp. injection Hcp as Hcp. rewrite <- Hcp.
    now apply unquoted_wrapped. }
  rewrite U.
  assert (Hc : c <> []).
  { destruct (M [""]) as [rest ->]; [|discriminate].
    intros r Hin. specialize (Habs r Hin).
    destruct (remove_all dq r) as [|x s]; [discriminate|].
    cbn [startswith] in Habs. rewrite andb_true_r in Habs.
    apply Ascii.eqb_eq in Habs. subst x.
    cbn [split]. unfold slash. rewrite Ascii.eqb_refl.
    exists (split slash None s). reflexivity. }
  destruct (P root Hr) as [rest Hrest].
  rewrite <- (join_split slash (remove_all dq root)), Hrest.
  change (String slash "") with "/".
  destruct rest as [|x rest].
  - rewrite app_nil_r, <- append_assoc. apply startswith_app.
  - rewrite join_app by (assumption || discriminate).
    rewrite !append_assoc.
    rewrite <- (append_assoc (join "/" c) "/").
    apply startswith_app.
Qed.

Lemma common_path_is_directory_prefix_witness :
  startswith "/a/b/" ("/a/b/c" ++ "/" ++ "src/x.py") = true.
Proof.
  assert (Habs : forall root, In root ["/a/b/c"; "/a/b/d"] ->
                   startswith "/" (remove_all dq root) = true)
    by (intros root [<-|[<-|[]]]; reflexivity).
  assert (Hne : ["/a/b/c"; "/a/b/d"] <> []) by discriminate.
  exact (common_path_is_directory_prefix ["/a/b/c"; "/a/b/d"]
           (dq ++ "/a/b/" ++ dq) Hne Habs eq_refl "/a/b/c" "src/x.py"
           (or_introl eq_refl)).
Defined.

(** ** Shortening, continued *)

Lemma take_length n s : String.length (take n s) = Nat.min n (String.length s).
Proof.
  unfold take. revert s; induction n as [|n IH]; intros [|c s]; simpl;
    try reflexivity.
  now rewrite IH.
Qed.

Lemma take_prefix n s : startswith (take n s) s = true.
Proof.
  unfold take. revert s; induction n as [|n IH]; intros [|c s]; simpl;
    try reflexivity.
  now rewrite Ascii.eqb_refl, IH.
Qed.

Lemma take_all n s : String.length s <= n -> take n s = s.
Proof.
  unfold take. revert s; induction n as [|n IH]; intros [|c s]; simpl;
    intros H; try reflexivity; try lia.
  rewrite IH; [reflexivity|lia].
Qed.

(** X9: the text of a displayed result is the beginning of the text the
    engine reported, cut after 1000 characters: it is never longer than
    that, and a text of at most 1000 characters is displayed whole. *)
Theorem shorten_caps_text (common_path : string) (r : Base.search_result) :
  String.length (snd (SearchInProjectCommand.shorten common_path r))
  <= 1000 /\
  startswith (snd (SearchInProjectCommand.shorten common_path r)) (snd r)
  = true /\
  (String.length (snd r) <= 1000 ->
   snd (SearchInProjectCommand.shorten common_path r) = snd r).
Proof.
  unfold SearchInProjectCommand.shorten,
    SearchInProjectCommand.MAX_RESULT_LINE_LENGTH. cbn [snd].
  split; [|split].
  - rewrite take_length. apply Nat.le_min_l.
  - apply take_prefix.
  - apply take_all.
Qed.

Lemma shorten_caps_text_witness :
  snd (SearchInProjectCommand.shorten (dq ++ "/r/" ++ dq)
         ("/r/a.py:1", "x = 1")) = "x = 1".
Proof.
  apply (proj2 (proj2 (shorten_caps_text (dq ++ "/r/" ++ dq)
                         ("/r/a.py:1", "x = 1")))).
  simpl. lia.
Defined.

Lemma occurs_cons old c s :
  occurs old (String c s) = startswith old (String c s) || occurs old s.
Proof. reflexivity. Qed.

(** Where [old] does not occur, [replace] changes nothing. *)
Lemma remove_all_absent old s :
  occurs old s = false -> remove_all old s = s.
Proof.
  destruct old as [|a old]; [reflexivity|].
  induction s as [|c s IH]; intros H; [reflexivity|].
  rewrite occurs_cons in H. apply orb_false_iff in H as [Hs Ho].
  rewrite remove_all_cons by discriminate. rewrite Hs, IH by assumption.
  reflexivity.
Qed.

(** An occurrence at the front is removed and the scan goes on behind
    it. *)
Lemma remove_all_front old s :
  old <> "" -> remove_all old (old ++ s) = remove_all old s.
Proof.
  intros H. destruct old as [|a old]; [congruence|].
  change (String a old ++ s) with (String a (old ++ s)).
  rewrite remove_all_cons by discriminate.
  change (String a (old ++ s)) with (String a old ++ s).
  rewrite startswith_app, drop_append. reflexivity.
Qed.

(** X10: shortening and re-prepending round-trip whenever the common path
    does not occur inside the root-relative locator: the result found at
    common path + locator is displayed as the locator, and the editor is
    handed the original location; a locator in which the common path does
    not occur at all is displayed unchanged. *)
Theorem shorten_round_trip (roots : list string) (cp rel text : string) :
  SearchInProjectCommand.find_common_path roots = Some cp ->
  occurs (SearchInProjectCommand.unquoted cp) rel = false ->
  fst (SearchInProjectCommand.shorten cp
         (SearchInProjectCommand.unquoted cp ++ rel, text)) = rel /\
  SearchInProjectCommand.file_name_and_col cp
    (fst (SearchInProjectCommand.shorten cp
            (SearchInProjectCommand.unquoted cp ++ rel, text)))
  = SearchInProjectCommand.unquoted cp ++ rel /\
  fst (SearchInProjectCommand.shorten cp (rel, text)) = rel.
Proof.
  intros Hcp Hocc.
  destruct (common_path_shape roots) as [cp' [body [E [_ [_ [_ Hne]]]]]].
  rewrite Hcp in E. injection E as <-.
  assert (R : remove_all (SearchInProjectCommand.unquoted cp)
                (SearchInProjectCommand.unquoted cp ++ rel) = rel).
  { rewrite remove_all_front by assumption. now apply remove_all_absent. }
  unfold SearchInProjectCommand.shorten,
    SearchInProjectCommand.file_name_and_col. cbn [fst].
  rewrite R. split; [reflexivity|]. split; [reflexivity|].
  now apply remove_all_absent.
Qed.

Lemma shorten_round_trip_witness :
  fst (SearchInProjectCommand.shorten (dq ++ "/a/b/" ++ dq)
         ("/a/b/" ++ "c/file.txt:3", "hit")) = "c/file.txt:3".
Proof.
  apply (shorten_round_trip ["/a/b/c"; "/a/b/d"] (dq ++ "/a/b/" ++ dq)
           "c/file.txt:3" "hit"); reflexivity.
Defined.

(** ** The search *)

Lemma perform_search_started (s : Spec.setup) st text :
  text <> "" ->
  exists cp,
    SearchInProjectCommand.find_common_path (Spec.folders s) = Some cp /\
    Spec.perform s st text
    = Some
        match SearchInProjectCommand.search_and_show
                (Spec.run_engine_method s) (Spec.show_list_by_default s)
                (Spec.started st text cp) text (Spec.folders s) with
        | inr out => out
        | inl e =>
            (SearchInProjectCommand.set_results (Spec.started st text cp) [],
             Some (SearchInProjectCommand.ErrorMessage
                     (Spec.error_heading s e) e))
        end.
Proof.
  intros Ht. destruct (common_path_shape (Spec.folders s)) as [cp [_ [E _]]].
  exists cp. split; [exact E|].
  unfold Spec.perform, SearchInProjectCommand.perform_search.
  rewrite (is_empty_false _ Ht). fold (Spec.folders s). rewrite E.
  unfold Spec.started, Spec.error_heading.
  destruct (SearchInProjectCommand.search_and_show _ _ _ _ _);
    reflexivity.
Qed.

Lemma started_fields st text cp :
  SearchInProjectCommand.last_search_string (Spec.started st text cp) = text /\
  SearchInProjectCommand.common_path (Spec.started st text cp) = cp /\
  SearchInProjectCommand.last_selected_result_index (Spec.started st text cp)
  = (if String.eqb (SearchInProjectCommand.last_search_string st) text
     then SearchInProjectCommand.last_selected_result_index st else 0%Z) /\
  SearchInProjectCommand.calls (Spec.started st text cp)
  = SearchInProjectCommand.calls st.
Proof.
  unfold Spec.started.
  destruct (String.eqb _ text); repeat split.
Qed.

Lemma search_and_show_keeps run show st text fs st' d :
  SearchInProjectCommand.search_and_show run show st text fs = ok (st', d) ->
  SearchInProjectCommand.last_search_string st'
  = SearchInProjectCommand.last_search_string st /\
  SearchInProjectCommand.last_selected_result_index st'
  = SearchInProjectCommand.last_selected_result_index st /\
  SearchInProjectCommand.common_path st'
  = SearchInProjectCommand.common_path st.
Proof.
  unfold SearchInProjectCommand.search_and_show.
  destruct (run text fs) as [e|[|r rs]]; cbn [bind ok];
    [discriminate|intros [= <- _]; repeat split|].
  destruct show.
  - unfold SearchInProjectCommand.list_in_view. cbn.
    intros [= <- _]. repeat split.
  - intros [= <- _]. repeat split.
Qed.

Lemma set_results_fields st rs :
  (SearchInProjectCommand.last_search_string
     (SearchInProjectCommand.set_results st rs)
   = SearchInProjectCommand.last_search_string st) /\
  (SearchInProjectCommand.common_path
     (SearchInProjectCommand.set_results st rs)
   = SearchInProjectCommand.common_path st) /\
  (SearchInProjectCommand.last_selected_result_index
     (SearchInProjectCommand.set_results st rs)
   = SearchInProjectCommand.last_selected_result_index st) /\
  (SearchInProjectCommand.calls (SearchInProjectCommand.set_results st rs)
   = SearchInProjectCommand.calls st).
Proof. repeat split. Qed.

(** X11: an empty query changes nothing and opens nothing.  For any other
    query [perform_search] ends, whatever the engine does, with the query
    stored as the last search string, the common path of the search
    folders stored, and the selected index kept when the query is the
    last one searched and reset to 0 when it is a new one. *)
Theorem perform_search_bookkeeping (s : Spec.setup)
  (st : SearchInProjectCommand.state) (text : string) :
  Spec.perform s st "" = Some (st, None) /\
  (text <> "" ->
   exists st' d,
     Spec.perform s st text = Some (st', d) /\
     SearchInProjectCommand.last_search_string st' = text /\
     SearchInProjectCommand.find_common_path (Spec.folders s)
     = Some (SearchInProjectCommand.common_path st') /\
     SearchInProjectCommand.last_selected_result_index st'
     = (if String.eqb (SearchInProjectCommand.last_search_string st) text
        then SearchInProjectCommand.last_selected_result_index st
        else 0%Z)).
Proof.
  split; [reflexivity|]. intros Ht.
  destruct (perform_search_started s st text Ht) as [cp [Hcp Hrun]].
  destruct (started_fields st text cp) as [F1 [F2 [F3 _]]].
  rewrite Hrun.
  destruct (SearchInProjectCommand.search_and_show _ _ _ _ _)
    as [e|[st' d]] eqn:E.
  - eexists _, _. split; [reflexivity|].
    destruct (set_results_fields (Spec.started st text cp) [])
      as [S1 [S2 [S3 _]]].
    rewrite S1, S2, S3, F1, F2, F3. auto.
  - apply search_and_show_keeps in E as [K1 [K2 K3]].
    exists st', d. split; [reflexivity|].
    rewrite K1, K2, K3, F1, F2, F3. auto.
Qed.

Lemma perform_search_bookkeeping_witness :
  exists st' d,
    Spec.perform (Sample.project [("/r/a.py:1", "needle")])
      Sample.on_trailing_entry "needle" = Some (st', d) /\
    SearchInProjectCommand.last_selected_result_index st' = 1%Z.
Proof.
  destruct (proj2 (perform_search_bookkeeping
                     (Sample.project [("/r/a.py:1", "needle")])
                     Sample.on_trailing_entry "needle"))
    as [st' [d [H [_ [_ Hi]]]]]; [discriminate|].
  exists st', d. split; [exact H|exact Hi].
Defined.

(** X12: when the engine finds results and the quick panel is used, the
    session holds the results in the engine's order, each with its
    locator shortened and its text capped, followed by the one entry for
    the listing; the quick panel shows exactly these entries at the
    selected index, and the editor is not called otherwise. *)
Theorem perform_search_shows_panel (s : Spec.setup)
  (st : SearchInProjectCommand.state) (text : string)
  (r : Base.search_result) (rs : list Base.search_result) :
  text <> "" ->
  Spec.show_list_by_default s = false ->
  Spec.run_engine_method s text (Spec.folders s) = ok (r :: rs) ->
  exists cp st',
    SearchInProjectCommand.find_common_path (Spec.folders s) = Some cp /\
    Spec.perform s st text
    = Some (st', Some (SearchInProjectCommand.QuickPanel
                         (SearchInProjectCommand.results st')
                         (SearchInProjectCommand.last_selected_result_index
                            st'))) /\
    SearchInProjectCommand.results st'
    = (map (Spec.displayed cp) (r :: rs)
         ++ [SearchInProjectCommand.ListInView])%list /\
    SearchInProjectCommand.calls st' = SearchInProjectCommand.calls st.
Proof.
  intros Ht Hshow Hrun.
  destruct (perform_search_started s st text Ht) as [cp [Hcp Hp]].
  destruct (started_fields st text cp) as [_ [F2 [_ F4]]].
  exists cp. rewrite Hp.
  unfold SearchInProjectCommand.search_and_show.
  rewrite Hrun, Hshow. cbn [bind ok].
  remember (Spec.started st text cp) as st0.
  eexists. split; [exact Hcp|]. split; [reflexivity|].
  cbn [SearchInProjectCommand.results SearchInProjectCommand.set_results
       SearchInProjectCommand.calls].
  rewrite F2, F4. split; reflexivity.
Qed.

Lemma perform_search_shows_panel_witness :
  exists cp st',
    SearchInProjectCommand.find_common_path ["/r"] = Some cp /\
    Spec.perform
      (Sample.project [("/r/a.py:1", "needle"); ("/r/b.py:7", "needle 2")])
      Sample.fresh "needle"
    = Some (st', Some (SearchInProjectCommand.QuickPanel
                         (SearchInProjectCommand.results st')
                         (SearchInProjectCommand.last_selected_result_index
                            st'))) /\
    SearchInProjectCommand.results st'
    = [SearchInProjectCommand.Item "a.py:1" "needle";
       SearchInProjectCommand.Item "b.py:7" "needle 2";
       SearchInProjectCommand.ListInView].
Proof.
  destruct (perform_search_shows_panel
              (Sample.project
                 [("/r/a.py:1", "needle"); ("/r/b.py:7", "needle 2")])
              Sample.fresh "needle" ("/r/a.py:1", "needle")
              [("/r/b.py:7", "needle 2")])
    as [cp [st' [Hcp [Hp [Hr _]]]]];
    [discriminate|reflexivity|reflexivity|].
  exists cp, st'. split; [exact Hcp|]. split; [exact Hp|].
  rewrite Hr. injection Hcp as <-. reflexivity.
Defined.

(** X13: when the listing is shown by default, [perform_search] appends
    no entry for the listing and [list_in_view] still removes the last
    element: the session and the listing command receive the results
    without the last one (a single result gives an empty listing). *)
Theorem perform_search_listing_drops_last (s : Spec.setup)
  (st : SearchInProjectCommand.state) (text : string)
  (r : Base.search_result) (rs : list Base.search_result) :
  text <> "" ->
  Spec.show_list_by_default s = true ->
  Spec.run_engine_method s text (Spec.folders s) = ok (r :: rs) ->
  exists cp st',
    SearchInProjectCommand.find_common_path (Spec.folders s) = Some cp /\
    Spec.perform s st text = Some (st', None) /\
    SearchInProjectCommand.results st'
    = removelast (map (Spec.displayed cp) (r :: rs)) /\
    SearchInProjectCommand.calls st'
    = (SearchInProjectCommand.calls st
         ++ [SearchInProjectCommand.SearchInProjectResults text
               (removelast (map (Spec.displayed cp) (r :: rs)))
               (SearchInProjectCommand.unquoted cp)])%list.
Proof.
  intros Ht Hshow Hrun.
  destruct (perform_search_started s st text Ht) as [cp [Hcp Hp]].
  destruct (started_fields st text cp) as [F1 [F2 [_ F4]]].
  exists cp. rewrite Hp.
  unfold SearchInProjectCommand.search_and_show.
  rewrite Hrun, Hshow. cbn [bind ok].
  remember (Spec.started st text cp) as st0.
  unfold SearchInProjectCommand.list_in_view.
  cbn [SearchInProjectCommand.results SearchInProjectCommand.set_results
       map bind ok].
  eexists. split; [exact Hcp|]. split; [reflexivity|].
  cbn [SearchInProjectCommand.results SearchInProjectCommand.set_results
       SearchInProjectCommand.calls SearchInProjectCommand.call
       SearchInProjectCommand.last_search_string
       SearchInProjectCommand.common_path].
  rewrite F1, F2, F4. split; reflexivity.
Qed.

Lemma perform_search_listing_drops_last_witness :
  exists cp st',
    SearchInProjectCommand.find_common_path ["/r"] = Some cp /\
    Spec.perform
      (Sample.project_with
         (Sample.finds [("/r/a.py:1", "needle"); ("/r/b.py:7", "needle")])
         true)
      Sample.fresh "needle" = Some (st', None) /\
    SearchInProjectCommand.results st'
    = [SearchInProjectCommand.Item "a.py:1" "needle"].
Proof.
  destruct (perform_search_listing_drops_last
              (Sample.project_with
                 (Sample.finds
                    [("/r/a.py:1", "needle"); ("/r/b.py:7", "needle")]) true)
              Sample.fresh "needle" ("/r/a.py:1", "needle")
              [("/r/b.py:7", "needle")])
    as [cp [st' [Hcp [Hp [Hr _]]]]];
    [discriminate|reflexivity|reflexivity|].
  exists cp, st'. split; [exact Hcp|]. split; [exact Hp|].
  rewrite Hr. injection Hcp as <-. reflexivity.
Defined.

(** X14: when the engine finds nothing the session is left without
    results and the message [No results] is shown; when the engine method
    raises, the session is left without results and the error window is
    shown, its heading naming the class of the exception and the engine.
    In both cases the editor is not called otherwise. *)
Theorem perform_search_without_results (s : Spec.setup)
  (st : SearchInProjectCommand.state) (text : string) :
  text <> "" ->
  (Spec.run_engine_method s text (Spec.folders s) = ok [] ->
   exists st',
     Spec.perform s st text
     = Some (st', Some (SearchInProjectCommand.MessageDialog "No results")) /\
     SearchInProjectCommand.results st' = [] /\
     SearchInProjectCommand.calls st' = SearchInProjectCommand.calls st) /\
  (forall e,
     Spec.run_engine_method s text (Spec.folders s) = raise e ->
     exists st',
       Spec.perform s st text
       = Some (st', Some (SearchInProjectCommand.ErrorMessage
                            (SearchInProjectCommand.class_name e
                               ++ " running search engine "
                               ++ Spec.engine_name s ++ ":" ++ nl) e)) /\
       SearchInProjectCommand.results st' = [] /\
       SearchInProjectCommand.calls st' = SearchInProjectCommand.calls st).
Proof.
  intros Ht.
  destruct (perform_search_started s st text Ht) as [cp [Hcp Hp]].
  destruct (started_fields st text cp) as [_ [_ [_ F4]]].
  rewrite Hp. unfold SearchInProjectCommand.search_and_show. split.
  - intros Hrun. rewrite Hrun. cbn [bind ok].
    eexists. split; [reflexivity|]. split; [reflexivity|exact F4].
  - intros e Hrun. rewrite Hrun. cbn [bind raise].
    eexists. split; [reflexivity|]. split; [reflexivity|exact F4].
Qed.

Lemma perform_search_without_results_witness :
  exists st',
    Spec.perform
      (Sample.project_with
         (Sample.raises (RuntimeError "Could not find executable grep"))
         false)
      Sample.on_trailing_entry "needle"
    = Some (st', Some (SearchInProjectCommand.ErrorMessage
                         ("RuntimeError running search engine grep:" ++ nl)
                         (RuntimeError "Could not find executable grep"))) /\
    SearchInProjectCommand.results st' = [].
Proof.
  destruct (proj2 (perform_search_without_results
                     (Sample.project_with
                        (Sample.raises
                           (RuntimeError "Could not find executable grep"))
                        false)
                     Sample.on_trailing_entry "needle"
                     ltac:(discriminate))
              (RuntimeError "Could not find executable grep") eq_refl)
    as [st' [Hp [Hr _]]].
  exists st'. split; [exact Hp|exact Hr].
Defined.




(** X16: in the definition search a query of white space only is not
    empty for [perform_search], is trimmed to the empty string by the
    planner, and ends in the error window for an [IndexError], the
    session left without results and the engine not run. *)
Theorem find_definition_blank_query
  (engine_run : string -> list string -> bool
                -> result (list Base.search_result))
  (s : Spec.setup) (st : SearchInProjectCommand.state) (text : string) :
  Spec.run_engine_method s
  = FindDefinitionInProjectCommand.run_engine engine_run ->
  text <> "" -> strip text = "" ->
  exists st',
    Spec.perform s st text
    = Some (st', Some (SearchInProjectCommand.ErrorMessage
                         ("IndexError running search engine "
                            ++ Spec.engine_name s ++ ":" ++ nl)
                         IndexError)) /\
    SearchInProjectCommand.results st' = [] /\
    SearchInProjectCommand.calls st' = SearchInProjectCommand.calls st.
Proof.
  intros Hm Ht Hblank.
  destruct (perform_search_started s st text Ht) as [cp [Hcp Hp]].
  destruct (started_fields st text cp) as [_ [_ [_ F4]]].
  rewrite Hp. unfold SearchInProjectCommand.search_and_show.
  rewrite Hm. unfold FindDefinitionInProjectCommand.run_engine.
  rewrite Hblank. cbn [FindDefinitionInProjectCommand.is_uppercasey
                       bind raise].
  eexists. split; [reflexivity|]. split; [reflexivity|exact F4].
Qed.

Lemma find_definition_blank_query_witness :
  exists st',
    Spec.perform
      (Sample.project_with
         (FindDefinitionInProjectCommand.run_engine Sample.echo) false)
      Sample.fresh "  "
    = Some (st', Some (SearchInProjectCommand.ErrorMessage
                         ("IndexError running search engine grep:" ++ nl)
                         IndexError)) /\
    SearchInProjectCommand.results st' = [].
Proof.
  destruct (find_definition_blank_query Sample.echo
              (Sample.project_with
                 (FindDefinitionInProjectCommand.run_engine Sample.echo)
                 false)
              Sample.fresh "  " eq_refl ltac:(discriminate) eq_refl)
    as [st' [Hp [Hr _]]].
  exists st'. split; [exact Hp|exact Hr].
Defined.

Lemma perform_search_panel_state (s : Spec.setup)
  (st : SearchInProjectCommand.state) (text : string)
  (rs : list Base.search_result) :
  text <> "" -> rs <> [] ->
  Spec.show_list_by_default s = false ->
  Spec.run_engine_method s text (Spec.folders s) = ok rs ->
  exists cp,
    SearchInProjectCommand.find_common_path (Spec.folders s) = Some cp /\
    let st' :=
      {| SearchInProjectCommand.results :=
           (map (Spec.displayed cp) rs
              ++ [SearchInProjectCommand.ListInView])%list;
         SearchInProjectCommand.last_search_string := text;
         SearchInProjectCommand.last_selected_result_index :=
           (if String.eqb (SearchInProjectCommand.last_search_string st) text
            then SearchInProjectCommand.last_selected_result_index st
            else 0%Z);
         SearchInProjectCommand.common_path := cp;
         SearchInProjectCommand.calls := SearchInProjectCommand.calls st |} in
    Spec.perform s st text
    = Some (st', Some (SearchInProjectCommand.QuickPanel
                         (SearchInProjectCommand.results st')
                         (SearchInProjectCommand.last_selected_result_index
                            st'))).
Proof.
  intros Ht Hne Hshow Hrun.
  destruct (perform_search_started s st text Ht) as [cp [Hcp Hp]].
  exists cp. split; [exact Hcp|]. cbv zeta. rewrite Hp.
  unfold SearchInProjectCommand.search_and_show.
  rewrite Hrun, Hshow. cbn [bind ok].
  destruct rs as [|r rs]; [congruence|].
  unfold Spec.started, Spec.displayed.
  destruct (String.eqb (SearchInProjectCommand.last_search_string st) text);
    reflexivity.
Qed.

(** X17: after a search for a new query that found at least two results
    and showed them in the quick panel, the command [next] selects index 1
    and opens the second result: the editor is asked to open the common
    path followed by the displayed locator of that result, not
    transiently, and to mark the matches of the query there. *)
Theorem next_after_search (file_already_open : string -> bool)
  (s : Spec.setup) (st : SearchInProjectCommand.state) (text : string)
  (r1 r2 : Base.search_result) (rs : list Base.search_result) :
  text <> "" ->
  SearchInProjectCommand.last_search_string st <> text ->
  Spec.show_list_by_default s = false ->
  Spec.run_engine_method s text (Spec.folders s) = ok (r1 :: r2 :: rs) ->
  exists cp st1 d st2,
    SearchInProjectCommand.find_common_path (Spec.folders s) = Some cp /\
    Spec.perform s st text = Some (st1, d) /\
    SearchInProjectCommand.goto_relative_result file_already_open st1 1
    = ok st2 /\
    SearchInProjectCommand.last_selected_result_index st2 = 1%Z /\
    SearchInProjectCommand.results st2 = SearchInProjectCommand.results st1 /\
    SearchInProjectCommand.calls st2
    = (SearchInProjectCommand.calls st
         ++ [SearchInProjectCommand.OpenFile
               (SearchInProjectCommand.file_name_and_col cp
                  (fst (SearchInProjectCommand.shorten cp r2))) false;
             SearchInProjectCommand.AddRegions
               (SearchInProjectCommand.file_name_and_col cp
                  (fst (SearchInProjectCommand.shorten cp r2))) text])%list.
Proof.
  intros Ht Hnew Hshow Hrun.
  destruct (perform_search_panel_state s st text (r1 :: r2 :: rs) Ht
              ltac:(discriminate) Hshow Hrun) as [cp [Hcp Hp]].
  cbv zeta in Hp. apply String.eqb_neq in Hnew. rewrite Hnew in Hp.
  exists cp. eexists _, _, _. split; [exact Hcp|]. split; [exact Hp|].
  unfold SearchInProjectCommand.goto_relative_result.
  cbn [SearchInProjectCommand.last_search_string
       SearchInProjectCommand.last_selected_result_index
       SearchInProjectCommand.results].
  rewrite (is_empty_false _ Ht). cbn [negb Z.add].
  set (items := (map (Spec.displayed cp) (r1 :: r2 :: rs)
                   ++ [SearchInProjectCommand.ListInView])%list).
  assert (Hlen : (3 <= Z.of_nat (List.length items))%Z).
  { unfold items. rewrite length_app, length_map. simpl List.length. lia. }
  assert (T1 : ((0 <=? 1) && (1 <? Z.of_nat (List.length items) - 1))%Z
               = true).
  { apply andb_true_iff. split; [reflexivity|apply Z.ltb_lt; lia]. }
  rewrite T1. unfold SearchInProjectCommand.goto_result.
  cbn [SearchInProjectCommand.results SearchInProjectCommand.set_index].
  assert (T2 : (1 =? Z.of_nat (List.length items) - 1)%Z = false)
    by (apply Z.eqb_neq; lia).
  change (1 =? -1)%Z with false. cbv iota. rewrite T2.
  unfold SearchInProjectCommand.open_and_highlight_file.
  cbn [SearchInProjectCommand.results SearchInProjectCommand.set_index].
  assert (Hix : SearchInProjectCommand.index items 1
                = ok (Spec.displayed cp r2)).
  { unfold SearchInProjectCommand.index.
    change (1 <? 0)%Z with false. cbv iota. change (1 <? 0)%Z with false.
    cbv iota. reflexivity. }
  rewrite Hix. cbn [bind ok andb].
  split; [reflexivity|]. split; [reflexivity|]. split; [reflexivity|].
  cbn [SearchInProjectCommand.calls SearchInProjectCommand.call
       SearchInProjectCommand.set_index
       SearchInProjectCommand.common_path
       SearchInProjectCommand.last_search_string].
  rewrite <- app_assoc. reflexivity.
Qed.

Lemma next_after_search_witness :
  exists cp st1 d st2,
    SearchInProjectCommand.find_common_path ["/r"] = Some cp /\
    Spec.perform
      (Sample.project [("/r/a.py:1", "needle"); ("/r/b.py:7", "needle")])
      Sample.fresh "needle" = Some (st1, d) /\
    SearchInProjectCommand.goto_relative_result Sample.none_open st1 1
    = ok st2 /\
    SearchInProjectCommand.calls st2
    = [SearchInProjectCommand.OpenFile "/r/b.py:7" false;
       SearchInProjectCommand.AddRegions "/r/b.py:7" "needle"].
Proof.
  destruct (next_after_search Sample.none_open
              (Sample.project
                 [("/r/a.py:1", "needle"); ("/r/b.py:7", "needle")])
              Sample.fresh "needle" ("/r/a.py:1", "needle")
              ("/r/b.py:7", "needle") [])
    as [cp [st1 [d [st2 [Hcp [Hp [Hg [_ [_ Hc]]]]]]]]];
    [discriminate|discriminate|reflexivity|reflexivity|].
  exists cp, st1, d, st2. split; [exact Hcp|]. split; [exact Hp|].
  split; [exact Hg|]. rewrite Hc. injection Hcp as <-. reflexivity.
Defined.

(** ** Clearing and choosing *)

Lemma erase_all_state rs :
  forall st,
    SearchInProjectCommand.erase_all st rs
    = {| SearchInProjectCommand.results := SearchInProjectCommand.results st;
         SearchInProjectCommand.last_search_string :=
           SearchInProjectCommand.last_search_string st;
         SearchInProjectCommand.last_selected_result_index :=
           SearchInProjectCommand.last_selected_result_index st;
         SearchInProjectCommand.common_path :=
           SearchInProjectCommand.common_path st;
         SearchInProjectCommand.calls :=
           (SearchInProjectCommand.calls st
              ++ map (fun e =>
                        SearchInProjectCommand.EraseRegions
                          (Spec.marked_file
                             (SearchInProjectCommand.common_path st) e))
                   rs)%list |}.
Proof.
  induction rs as [|r rs IH]; intros st.
  - simpl. rewrite app_nil_r. destruct st; reflexivity.
  - cbn [SearchInProjectCommand.erase_all]. rewrite IH.
    cbn [SearchInProjectCommand.call SearchInProjectCommand.results
         SearchInProjectCommand.last_search_string
         SearchInProjectCommand.last_selected_result_index
         SearchInProjectCommand.common_path SearchInProjectCommand.calls
         map].
    rewrite <- app_assoc. reflexivity.
Qed.

(** X18: [clear_markup] empties the results and keeps the query, the
    selected index and the common path; it asks the editor to erase the
    marks of every entry but the last, in order, and of nothing else.
    Clearing twice is clearing once, and after clearing a relative
    navigation step does nothing. *)
Theorem clear_markup_clears (st : SearchInProjectCommand.state) :
  SearchInProjectCommand.clear_markup st
  = {| SearchInProjectCommand.results := [];
       SearchInProjectCommand.last_search_string :=
         SearchInProjectCommand.last_search_string st;
       SearchInProjectCommand.last_selected_result_index :=
         SearchInProjectCommand.last_selected_result_index st;
       SearchInProjectCommand.common_path :=
         SearchInProjectCommand.common_path st;
       SearchInProjectCommand.calls :=
         (SearchInProjectCommand.calls st
            ++ map (fun e =>
                      SearchInProjectCommand.EraseRegions
                        (Spec.marked_file
                           (SearchInProjectCommand.common_path st) e))
                 (removelast (SearchInProjectCommand.results st)))%list |} /\
  SearchInProjectCommand.clear_markup (SearchInProjectCommand.clear_markup st)
  = SearchInProjectCommand.clear_markup st /\
  forall file_already_open offset,
    SearchInProjectCommand.goto_relative_result file_already_open
      (SearchInProjectCommand.clear_markup st) offset
    = ok (SearchInProjectCommand.clear_markup st).
Proof.
  assert (E : forall st0,
             SearchInProjectCommand.clear_markup st0
             = {| SearchInProjectCommand.results := [];
                  SearchInProjectCommand.last_search_string :=
                    SearchInProjectCommand.last_search_string st0;
                  SearchInProjectCommand.last_selected_result_index :=
                    SearchInProjectCommand.last_selected_result_index st0;
                  SearchInProjectCommand.common_path :=
                    SearchInProjectCommand.common_path st0;
                  SearchInProjectCommand.calls :=
                    (SearchInProjectCommand.calls st0
                       ++ map (fun e =>
                                 SearchInProjectCommand.EraseRegions
                                   (Spec.marked_file
                                      (SearchInProjectCommand.common_path st0)
                                      e))
                            (removelast
                               (SearchInProjectCommand.results st0)))%list
               |}).
  { intros st0. unfold SearchInProjectCommand.clear_markup.
    rewrite erase_all_state. reflexivity. }
  split; [apply E|]. split.
  - rewrite (E st). rewrite E. cbn. rewrite app_nil_r. reflexivity.
  - intros fao offset. rewrite (E st).
    unfold SearchInProjectCommand.goto_relative_result.
    cbn [SearchInProjectCommand.results
         SearchInProjectCommand.last_search_string
         SearchInProjectCommand.last_selected_result_index List.length].
    destruct (negb (is_empty _)); [|reflexivity].
    destruct (0 <=? _)%Z eqn:H0; [|reflexivity].
    assert (H1 : (SearchInProjectCommand.last_selected_result_index st
                    + offset <? Z.of_nat 0 - 1)%Z = false).
    { apply Z.ltb_ge. apply Z.leb_le in H0. simpl. lia. }
    rewrite H1. reflexivity.
Qed.

Lemma index_nth {A} (xs : list A) (i : nat) (x : A) :
  nth_error xs i = Some x ->
  SearchInProjectCommand.index xs (Z.of_nat i) = ok x.
Proof.
  intros H. unfold SearchInProjectCommand.index.
  destruct (Z.of_nat i <? 0)%Z eqn:E; [apply Z.ltb_lt in E; lia|].
  rewrite E, Nat2Z.id, H. reflexivity.
Qed.

(** X19: the answers of the quick panel, for a session whose results are
    [n] entries followed by the entry for the listing.  Choosing entry
    [i < n] opens it (common path followed by its locator, not
    transiently) and marks the query there, the session unchanged
    otherwise; choosing the last entry removes it from the results and
    hands the listing command the query, exactly the [n] entries and the
    unquoted common path; cancelling (-1) clears the marks and the results
    and gives the focus back to the saved view. *)
Theorem goto_result_choices (file_already_open : string -> bool)
  (st : SearchInProjectCommand.state)
  (items : list SearchInProjectCommand.entry) :
  SearchInProjectCommand.results st
  = (items ++ [SearchInProjectCommand.ListInView])%list ->
  (forall i e,
     nth_error items i = Some e ->
     SearchInProjectCommand.goto_result file_already_open st (Z.of_nat i)
     = ok (SearchInProjectCommand.call
             (SearchInProjectCommand.call st
                (SearchInProjectCommand.OpenFile
                   (SearchInProjectCommand.file_name_and_col
                      (SearchInProjectCommand.common_path st)
                      (SearchInProjectCommand.entry_0 e)) false))
             (SearchInProjectCommand.AddRegions
                (SearchInProjectCommand.file_name_and_col
                   (SearchInProjectCommand.common_path st)
                   (SearchInProjectCommand.entry_0 e))
                (SearchInProjectCommand.last_search_string st)))) /\
  SearchInProjectCommand.goto_result file_already_open st
    (Z.of_nat (List.length items))
  = ok (SearchInProjectCommand.call
          (SearchInProjectCommand.set_results st items)
          (SearchInProjectCommand.SearchInProjectResults
             (SearchInProjectCommand.last_search_string st) items
             (SearchInProjectCommand.unquoted
                (SearchInProjectCommand.common_path st)))) /\
  SearchInProjectCommand.goto_result file_already_open st (-1)
  = ok (SearchInProjectCommand.call
          (SearchInProjectCommand.clear_markup st)
          SearchInProjectCommand.FocusSavedView).
Proof.
  intros Hres.
  assert (Hlen : Z.of_nat (List.length (SearchInProjectCommand.results st))
                 = (Z.of_nat (List.length items) + 1)%Z).
  { rewrite Hres, length_app. simpl. lia. }
  split; [|split].
  - intros i e Hi.
    assert (Hlt : i < List.length items)
      by (apply nth_error_Some; congruence).
    unfold SearchInProjectCommand.goto_result.
    assert (E1 : (Z.of_nat i =? -1)%Z = false) by (apply Z.eqb_neq; lia).
    assert (E2 : (Z.of_nat i
                  =? Z.of_nat (List.length
                                 (SearchInProjectCommand.results st)) - 1)%Z
                 = false) by (apply Z.eqb_neq; lia).
    rewrite E1, E2. unfold SearchInProjectCommand.open_and_highlight_file.
    rewrite (index_nth _ i e).
    2:{ rewrite Hres, nth_error_app1 by assumption. exact Hi. }
    reflexivity.
  - unfold SearchInProjectCommand.goto_result.
    assert (E1 : (Z.of_nat (List.length items) =? -1)%Z = false)
      by (apply Z.eqb_neq; lia).
    assert (E2 : (Z.of_nat (List.length items)
                  =? Z.of_nat (List.length
                                 (SearchInProjectCommand.results st)) - 1)%Z
                 = true) by (apply Z.eqb_eq; lia).
    rewrite E1, E2. unfold SearchInProjectCommand.list_in_view.
    rewrite Hres, removelast_last.
    destruct items; reflexivity.
  - reflexivity.
Qed.

Lemma goto_result_choices_witness :
  SearchInProjectCommand.goto_result Sample.none_open
    Sample.on_trailing_entry 1
  = ok (SearchInProjectCommand.call
          (SearchInProjectCommand.set_results Sample.on_trailing_entry
             [SearchInProjectCommand.Item "a.txt:1" "needle"])
          (SearchInProjectCommand.SearchInProjectResults "needle"
             [SearchInProjectCommand.Item "a.txt:1" "needle"] "/r/")).
Proof.
  apply (proj1 (proj2 (goto_result_choices Sample.none_open
                         Sample.on_trailing_entry
                         [SearchInProjectCommand.Item "a.txt:1" "needle"]
                         eq_refl))).
Defined.

Lemma open_and_highlight_file_keeps fao st i transient st' :
  SearchInProjectCommand.open_and_highlight_file fao st i transient = ok st' ->
  SearchInProjectCommand.results st' = SearchInProjectCommand.results st /\
  SearchInProjectCommand.last_selected_result_index st'
  = SearchInProjectCommand.last_selected_result_index st.
Proof.
  unfold SearchInProjectCommand.open_and_highlight_file.
  destruct (SearchInProjectCommand.index _ i) as [e|r]; [discriminate|].
  cbn [bind]. destruct (transient && fao _); intros [= <-]; split;
    reflexivity.
Qed.

Lemma index_out_of_range {A} (xs : list A) (i : Z) :
  (i < - Z.of_nat (List.length xs) \/ Z.of_nat (List.length xs) <= i)%Z ->
  SearchInProjectCommand.index xs i = raise IndexError.
Proof.
  intros H. unfold SearchInProjectCommand.index.
  destruct (i <? 0)%Z eqn:E.
  - apply Z.ltb_lt in E.
    assert (E' : (Z.of_nat (List.length xs) + i <? 0)%Z = true)
      by (apply Z.ltb_lt; lia).
    rewrite E'. reflexivity.
  - apply Z.ltb_ge in E.
    assert (E' : (i <? 0)%Z = false) by (apply Z.ltb_ge; lia).
    rewrite E'.
    assert (N : nth_error xs (Z.to_nat i) = None)
      by (apply nth_error_None; lia).
    rewrite N. reflexivity.
Qed.

(** X20: highlighting in the quick panel.  [on_highlighted] stores every
    index it is given and never changes the results, also when it raises:
    for an index other than -1 outside the results ([i >= len] or
    [i < -len]) the index is stored and [IndexError] is raised.  In a session of [n] results
    followed by the entry for the listing, the index of a result previews
    its file transiently, unless the file (the location up to its first
    colon) is already open in another view, in which case the editor is
    not called; for -1 and for the last entry nothing is previewed. *)
Theorem on_highlighted_previews (file_already_open : string -> bool)
  (st : SearchInProjectCommand.state) :
  (forall i,
     SearchInProjectCommand.last_selected_result_index
       (fst (SearchInProjectCommand.on_highlighted file_already_open st i))
     = i /\
     SearchInProjectCommand.results
       (fst (SearchInProjectCommand.on_highlighted file_already_open st i))
     = SearchInProjectCommand.results st) /\
  (forall i,
     i <> (-1)%Z ->
     (i < - Z.of_nat (List.length (SearchInProjectCommand.results st)) \/
      Z.of_nat (List.length (SearchInProjectCommand.results st)) <= i)%Z ->
     SearchInProjectCommand.on_highlighted file_already_open st i
     = (SearchInProjectCommand.set_index st i, Some IndexError)) /\
  (forall items,
     SearchInProjectCommand.results st
     = (items ++ [SearchInProjectCommand.ListInView])%list ->
     (forall i e,
        nth_error items i = Some e ->
        let location :=
          SearchInProjectCommand.file_name_and_col
            (SearchInProjectCommand.common_path st)
            (SearchInProjectCommand.entry_0 e) in
        SearchInProjectCommand.on_highlighted file_already_open st
          (Z.of_nat i)
        = (if file_already_open (Spec.file_of location)
           then SearchInProjectCommand.set_index st (Z.of_nat i)
           else
             SearchInProjectCommand.call
               (SearchInProjectCommand.call
                  (SearchInProjectCommand.set_index st (Z.of_nat i))
                  (SearchInProjectCommand.OpenFile location true))
               (SearchInProjectCommand.AddRegions location
                  (SearchInProjectCommand.last_search_string st)),
           None)) /\
     SearchInProjectCommand.on_highlighted file_already_open st
       (Z.of_nat (List.length items))
     = (SearchInProjectCommand.set_index st (Z.of_nat (List.length items)),
        None) /\
     SearchInProjectCommand.on_highlighted file_already_open st (-1)
     = (SearchInProjectCommand.set_index st (-1), None)).
Proof.
  split; [|split].
  - intros i. unfold SearchInProjectCommand.on_highlighted.
    destruct (negb _ && negb _); [|split; reflexivity].
    destruct (SearchInProjectCommand.open_and_highlight_file _ _ i true)
      as [e|st'] eqn:E; [split; reflexivity|].
    apply open_and_highlight_file_keeps in E as [R I].
    cbn [fst]. rewrite R, I. split; reflexivity.
  - intros i Hcancel Hout. unfold SearchInProjectCommand.on_highlighted.
    cbn [SearchInProjectCommand.results SearchInProjectCommand.set_index].
    assert (E1 : (i =? -1)%Z = false) by (apply Z.eqb_neq; assumption).
    assert (E2 : (i =? Z.of_nat (List.length
                                   (SearchInProjectCommand.results st)) - 1)%Z
                 = false) by (apply Z.eqb_neq; lia).
    rewrite E1, E2. cbn [negb andb].
    unfold SearchInProjectCommand.open_and_highlight_file.
    cbn [SearchInProjectCommand.results SearchInProjectCommand.set_index].
    rewrite (index_out_of_range _ i Hout). reflexivity.
  - intros items Hres.
    assert (Hlen : Z.of_nat (List.length (SearchInProjectCommand.results st))
                   = (Z.of_nat (List.length items) + 1)%Z).
    { rewrite Hres, length_app. simpl. lia. }
    split; [|split].
    + intros i e Hi location.
      assert (Hlt : i < List.length items)
        by (apply nth_error_Some; congruence).
      unfold SearchInProjectCommand.on_highlighted.
      cbn [SearchInProjectCommand.results SearchInProjectCommand.set_index].
      assert (E1 : (Z.of_nat i =? -1)%Z = false) by (apply Z.eqb_neq; lia).
      assert (E2 : (Z.of_nat i
                    =? Z.of_nat (List.length
                                   (SearchInProjectCommand.results st)) - 1)%Z
                   = false) by (apply Z.eqb_neq; lia).
      rewrite E1, E2. cbn [negb andb].
      unfold SearchInProjectCommand.open_and_highlight_file.
      cbn [SearchInProjectCommand.results SearchInProjectCommand.set_index].
      rewrite (index_nth _ i e).
      2:{ rewrite Hres, nth_error_app1 by assumption. exact Hi. }
      subst location.
      unfold Spec.file_of, SearchInProjectCommand.file_name_and_col.
      cbn [bind ok andb SearchInProjectCommand.common_path
           SearchInProjectCommand.last_search_string
           SearchInProjectCommand.set_index].
      destruct (file_already_open _); reflexivity.
    + unfold SearchInProjectCommand.on_highlighted.
      cbn [SearchInProjectCommand.results SearchInProjectCommand.set_index].
      assert (E2 : (Z.of_nat (List.length items)
                    =? Z.of_nat (List.length
                                   (SearchInProjectCommand.results st)) - 1)%Z
                   = true) by (apply Z.eqb_eq; lia).
      rewrite E2, andb_false_r. reflexivity.
    + reflexivity.
Qed.

Lemma on_highlighted_previews_witness :
  SearchInProjectCommand.on_highlighted Sample.none_open
    Sample.on_trailing_entry 5
  = (SearchInProjectCommand.set_index Sample.on_trailing_entry 5,
     Some IndexError).
Proof.
  apply (proj1 (proj2 (on_highlighted_previews Sample.none_open
                         Sample.on_trailing_entry))).
  - discriminate.
  - right. simpl. lia.
Defined.

(** ** The definition planner, continued *)

Lemma run_patterns_ext e1 e2 folders patterns :
  (forall p, e1 p folders false = e2 p folders false) ->
  forall acc,
    FindDefinitionInProjectCommand.run_patterns e1 patterns folders acc
    = FindDefinitionInProjectCommand.run_patterns e2 patterns folders acc.
Proof.
  intros H. induction patterns as [|[name pattern] patterns IH]; intros acc;
    [reflexivity|].
  cbn [FindDefinitionInProjectCommand.run_patterns]. rewrite H.
  destruct (e2 pattern folders false); [reflexivity|]. apply IH.
Qed.

(** X21: the definition search runs the engine with adjacent lines merged
    only: what the engine would answer with [keep_adjacents] true, or for
    other folders, has no influence on the result. *)
Theorem run_engine_only_merging
  (engine1 engine2 : string -> list string -> bool
                     -> result (list Base.search_result))
  (text_raw : string) (folders : list string) :
  (forall pattern,
     engine1 pattern folders false = engine2 pattern folders false) ->
  FindDefinitionInProjectCommand.run_engine engine1 text_raw folders
  = FindDefinitionInProjectCommand.run_engine engine2 text_raw folders.
Proof.
  intros H. unfold FindDefinitionInProjectCommand.run_engine.
  destruct (FindDefinitionInProjectCommand.is_uppercasey (strip text_raw))
    as [e|up]; [reflexivity|].
  cbn [bind]. apply run_patterns_ext, H.
Qed.

Lemma run_engine_only_merging_witness :
  FindDefinitionInProjectCommand.run_engine Sample.echo "Foo" ["/r"]
  = FindDefinitionInProjectCommand.run_engine Sample.echo_merging "Foo"
      ["/r"].
Proof.
  apply (run_engine_only_merging Sample.echo Sample.echo_merging "Foo"
           ["/r"]).
  intros pattern. reflexivity.
Defined.

(** X22: white space around the queried symbol has no influence on the
    definition search: the query and the trimmed query give the same
    result. *)
Theorem run_engine_trims
  (engine_run : string -> list string -> bool
                -> result (list Base.search_result))
  (text_raw : string) (folders : list string) :
  FindDefinitionInProjectCommand.run_engine engine_run (strip text_raw)
    folders
  = FindDefinitionInProjectCommand.run_engine engine_run text_raw folders.
Proof.
  unfold FindDefinitionInProjectCommand.run_engine.
  rewrite strip_idem. reflexivity.
Qed.

Lemma run_patterns_fails engine_run folders pre :
  forall (res : string -> list Base.search_result) name pattern post e acc,
    (forall np, In np pre ->
                engine_run (snd np) folders false = ok (res (snd np))) ->
    engine_run pattern folders false = raise e ->
    FindDefinitionInProjectCommand.run_patterns engine_run
      (pre ++ (name, pattern) :: post) folders acc
    = raise e.
Proof.
  induction pre as [|[n p] pre IH]; intros res name pattern post e acc Hpre He.
  - cbn [app FindDefinitionInProjectCommand.run_patterns]. rewrite He.
    reflexivity.
  - cbn [app FindDefinitionInProjectCommand.run_patterns].
    pose proof (Hpre (n, p) (or_introl eq_refl)) as Hhead.
    cbn [snd] in Hhead. rewrite Hhead. cbn [bind ok].
    apply (IH res); [|assumption].
    intros np Hin. apply Hpre. now right.
Qed.

(** X23: the definition search fails as soon as the engine fails: when
    the engine raises for the pattern of one category and succeeded for
    the categories before it, the search raises the same exception and
    the results already found are lost. *)
Theorem run_engine_first_failure
  (engine_run : string -> list string -> bool
                -> result (list Base.search_result))
  (text_raw : string) (folders : list string) (c : ascii) (rest : string)
  (res : string -> list Base.search_result)
  (before after : list (string * string)) (name pattern : string)
  (e : exn) :
  strip text_raw = String c rest ->
  Spec.categories c (strip text_raw)
  = (before ++ (name, pattern) :: after)%list ->
  (forall np, In np before ->
              engine_run (snd np) folders false = ok (res (snd np))) ->
  engine_run pattern folders false = raise e ->
  FindDefinitionInProjectCommand.run_engine engine_run text_raw folders
  = raise e.
Proof.
  intros Hs Hcat Hbefore He.
  unfold FindDefinitionInProjectCommand.run_engine.
  unfold Spec.categories in Hcat. rewrite Hs in *.
  cbn [FindDefinitionInProjectCommand.is_uppercasey bind ok].
  rewrite Hcat. now apply (run_patterns_fails engine_run folders before res).
Qed.

Lemma run_engine_first_failure_witness :
  FindDefinitionInProjectCommand.run_engine Sample.echo_anchored "foo"
    ["/r"]
  = raise (RuntimeError "bad pattern").
Proof.
  apply (run_engine_first_failure Sample.echo_anchored "foo" ["/r"]
           "f"%char "oo" (fun p => [(p, "hit")])
           [("Value type", "^ *(foo)\s+::\s+.");
            ("Value def'n", "^ *(foo)\s+[^=$]*\s=\s")]
           []
           "Record getter" " +[{,] +(foo)\s+::\s+"
           (RuntimeError "bad pattern") eq_refl eq_refl).
  - intros np [<-|[<-|[]]]; reflexivity.
  - reflexivity.
Defined.

(** X24: for a symbol that begins with an ASCII character the planner
    searches the type-like categories exactly when that character is one
    of the capital letters A to Z; a symbol beginning with a small letter,
    a digit, an underscore or an operator character is value-like. *)
Theorem ascii_symbols_classified (c : ascii) (rest : string) :
  (code c <? 128)%nat = true ->
  FindDefinitionInProjectCommand.is_uppercasey (String c rest)
  = ok ((65 <=? code c)%nat && (code c <=? 90)%nat).
Proof.
  destruct c as [[] [] [] [] [] [] [] []]; vm_compute;
    first [reflexivity | discriminate].
Qed.

Lemma ascii_symbols_classified_witness :
  FindDefinitionInProjectCommand.is_uppercasey "_foo" = ok false.
Proof.
  apply (ascii_symbols_classified "_"%char "foo"). reflexivity.
Defined.

(** ** The listing, continued *)

Lemma results_of_cons f r rs :
  Spec.results_of f (r :: rs)
  = if String.eqb (Spec.filename_of (fst r)) f
    then r :: Spec.results_of f rs else Spec.results_of f rs.
Proof. reflexivity. Qed.

Lemma concat_results_of_other r rs (fs : list string) :
  ~ In (Spec.filename_of (fst r)) fs ->
  concat (map (fun f => Spec.results_of f (r :: rs)) fs)
  = concat (map (fun f => Spec.results_of f rs) fs).
Proof.
  intros H. f_equal. apply map_ext_in. intros f Hf.
  rewrite results_of_cons.
  destruct (String.eqb_spec (Spec.filename_of (fst r)) f) as [E|E];
    [|reflexivity].
  exfalso. apply H. now rewrite E.
Qed.

(** The results of the files of a duplicate-free list that names every
    file are the results, rearranged. *)
Lemma results_partition (rs : list Base.search_result) :
  forall fs : list string,
    NoDup fs ->
    (forall r, In r rs -> In (Spec.filename_of (fst r)) fs) ->
    Permutation (concat (map (fun f => Spec.results_of f rs) fs)) rs.
Proof.
  induction rs as [|r rs IH]; intros fs Hnd Hall.
  - replace (concat (map (fun f => Spec.results_of f []) fs))
      with (@nil Base.search_result); [constructor|].
    clear. induction fs as [|f fs IH]; [reflexivity|]. simpl. exact IH.
  - destruct (in_split _ _ (Hall r (or_introl eq_refl))) as [a [b Hfs]].
    subst fs. pose proof (NoDup_remove_2 _ _ _ Hnd) as Hnot.
    rewrite map_app, concat_app. cbn [map concat].
    rewrite results_of_cons, String.eqb_refl.
    rewrite !concat_results_of_other
      by (intros H; apply Hnot; apply in_or_app; auto).
    cbn [app]. apply Permutation_sym, Permutation_cons_app, Permutation_sym.
    specialize (IH (a ++ Spec.filename_of (fst r) :: b)%list Hnd).
    rewrite map_app, concat_app in IH. cbn [map concat] in IH.
    apply IH. intros x Hx. apply Hall. now right.
Qed.

Lemma entries_of_groups rs (fs : list string) :
  Spec.entries_of (map (Spec.group_of rs) fs)
  = map Spec.cut (concat (map (fun f => Spec.results_of f rs) fs)).
Proof.
  unfold Spec.entries_of. rewrite concat_map, !map_map. f_equal.
  apply map_ext. intros f. unfold Spec.group_of. cbn [fst snd].
  rewrite map_map. apply map_ext_in. intros r Hr. cbn [fst snd].
  apply filter_In in Hr as [_ Hr]. apply String.eqb_eq in Hr.
  unfold Spec.cut. now rewrite Hr.
Qed.

(** X25: grouping loses and invents nothing: when every locator contains
    a colon, the dictionary built by [format_results] has one key per
    distinct file name, and its entries, each taken with its key, are the
    results, each cut at its first colon, rearranged. *)
Theorem group_results_keeps_all (results : list Base.search_result) :
  (forall r, In r results -> contains colon (fst r) = true) ->
  exists grouped,
    SearchInProjectResultsCommand.group_results results [] = ok grouped /\
    NoDup (map fst grouped) /\
    Permutation (Spec.entries_of grouped) (map Spec.cut results).
Proof.
  intros H. eexists. split; [apply group_results_groups, H|].
  set (fs := Spec.first_seen (map (fun r => Spec.filename_of (fst r)) results)).
  split.
  - rewrite map_map. cbn [Spec.group_of fst]. rewrite map_id.
    apply first_seen_NoDup.
  - rewrite entries_of_groups. apply Permutation_map, results_partition.
    + apply first_seen_NoDup.
    + intros r Hr. apply first_seen_In.
      apply (in_map (fun r => Spec.filename_of (fst r))), Hr.
Qed.

Lemma group_results_keeps_all_witness :
  exists grouped,
    SearchInProjectResultsCommand.group_results
      [("a.txt:1", "x"); ("b.txt:5", "y"); ("a.txt:7:3", "z")] []
    = ok grouped /\
    NoDup (map fst grouped).
Proof.
  destruct (group_results_keeps_all
              [("a.txt:1", "x"); ("b.txt:5", "y"); ("a.txt:7:3", "z")])
    as [g [Hg [Hn _]]].
  - intros r [<-|[<-|[<-|[]]]]; reflexivity.
  - exists g. split; assumption.
Defined.

Lemma parse_output_colon output keep r :
  In r (Base._parse_output output keep) -> contains colon (fst r) = true.
Proof.
  unfold Base._parse_output. intros Hr.
  apply in_map_iff in Hr as [fields [<- Hf]].
  apply filter_lines_incl in Hf as [_ Hlen].
  now apply locator_has_colon.
Qed.

Lemma startswith_cut p s :
  startswith p s = true -> s = p ++ drop (String.length p) s.
Proof.
  revert s; induction p as [|a p IH]; intros s H.
  - destruct s; reflexivity.
  - destruct s as [|b s]; [discriminate|]. cbn [startswith] in H.
    apply andb_true_iff in H as [Hab Hp]. apply Ascii.eqb_eq in Hab.
    subst b. cbn [String.length drop append]. f_equal. now apply IH.
Qed.

(** Removing the occurrences of a string without [c] keeps every [c]. *)
Lemma contains_remove_from c old :
  old <> "" -> contains c old = false ->
  forall s k,
    contains c (remove_from old k s) = contains c (drop k s).
Proof.
  intros Hne Hold. induction s as [|a s IH]; intros k.
  - destruct k; reflexivity.
  - destruct k as [|k]; cbn [remove_from drop]; [|apply IH].
    destruct (startswith old (String a s)) eqn:E.
    + rewrite IH. apply startswith_cut in E.
      destruct old as [|o old]; [congruence|].
      cbn [String.length] in *. rewrite Nat.sub_succ, Nat.sub_0_r.
      cbn [drop] in E. rewrite E.
      change (String o old ++ drop (String.length old) s)
        with (String o (old ++ drop (String.length old) s)).
      cbn [contains]. simpl in Hold.
      apply orb_false_iff in Hold as [Ho Hold].
      rewrite contains_app, Ho, Hold. reflexivity.
    + cbn [contains]. now rewrite (IH 0).
Qed.

Lemma contains_remove_all c old s :
  contains c old = false ->
  contains c (remove_all old s) = contains c s.
Proof.
  intros H. unfold remove_all. destruct old as [|o old]; [reflexivity|].
  cbn [is_empty].
  now rewrite (contains_remove_from c (String o old) ltac:(discriminate) H
                 s 0).
Qed.

(** X26: what the parser produces can always be listed: when the unquoted
    common path contains no colon, the results of [_parse_output], as
    [perform_search] displays them and the listing command reads them,
    are formatted into a document and never raise. *)
Theorem parsed_results_format (common_path output query : string)
  (keep_adjacents : bool) :
  contains colon (SearchInProjectCommand.unquoted common_path) = false ->
  exists document,
    SearchInProjectResultsCommand.run
      (SearchInProjectCommand.unquoted common_path)
      (map SearchInProjectCommand.as_result
         (map (Spec.displayed common_path)
            (Base._parse_output output keep_adjacents)))
      query
    = ok document.
Proof.
  intros Hcp.
  unfold SearchInProjectResultsCommand.run,
    SearchInProjectResultsCommand.format_results.
  destruct (group_results_colon
              (map SearchInProjectCommand.as_result
                 (map (Spec.displayed common_path)
                    (Base._parse_output output keep_adjacents))) [])
    as [g Hg].
  - intros r Hr. rewrite map_map in Hr.
    apply in_map_iff in Hr as [x [<- Hx]].
    cbn [SearchInProjectCommand.as_result Spec.displayed
         SearchInProjectCommand.entry_0 SearchInProjectCommand.shorten fst].
    rewrite contains_remove_all by assumption.
    now apply (parse_output_colon output keep_adjacents).
  - rewrite Hg. cbn [bind ok]. eexists. reflexivity.
Qed.

Lemma parsed_results_format_witness :
  exists document,
    SearchInProjectResultsCommand.run "/r/"
      [("a.txt:1", "hello"); ("b.txt:5", "other")] "hello"
    = ok document.
Proof.
  apply (parsed_results_format (dq ++ "/r/" ++ dq)
           ("/r/a.txt:1:hello" ++ nl ++ "/r/a.txt:2:hello again" ++ nl
              ++ "/r/b.txt:5:other") "hello" false).
  reflexivity.
Defined.

(** ** The adjacency filter, continued *)

Lemma filter_adjacent_run rest :
  forall last, Spec.consecutive last rest -> Base.filter_adjacent last rest = [].
Proof.
  induction rest as [|this rest IH]; intros last H; [reflexivity|].
  destruct H as [Hn Hc]. cbn [Base.filter_adjacent].
  apply adjacent_next_line in Hn. rewrite Hn. now apply IH.
Qed.

(** X27: results on consecutive lines of one file are merged into the
    first of them, however long the run: a match that spans several lines
    is reported once, at its first line. *)
Theorem consecutive_lines_merge (first : list string)
  (rest : list (list string)) :
  (forall line, In line (first :: rest) -> 2 < List.length line) ->
  Spec.consecutive first rest ->
  Base._filter_lines_without_matches (first :: rest) false = [first].
Proof.
  intros Hlong Hrun. rewrite filter_lines_unfold.
  rewrite (filter_all_true Spec.long_enough).
  - now rewrite filter_adjacent_run.
  - intros x Hx. apply Nat.ltb_lt. now apply Hlong.
Qed.

Lemma consecutive_lines_merge_witness :
  Base._filter_lines_without_matches
    [["a.py"; "7"; "def f("]; ["a.py"; "8"; "    x,"]; ["a.py"; "9"; "):"]]
    false
  = [["a.py"; "7"; "def f("]].
Proof.
  apply consecutive_lines_merge.
  - intros line [<-|[<-|[<-|[]]]]; simpl; lia.
  - split; [|split; [|exact I]].
    + split; [reflexivity|]. exists 7%Z. split; reflexivity.
    + split; [reflexivity|]. exists 8%Z. split; reflexivity.
Defined.
